(** * Events admin views: a shallow embedding

    The development follows two React components of the admin dashboard,
    [EventsManagement] and [CreateEvent] (both in
    [src/components/admin/events/events-management.tsx]), and the response
    envelope [ApiResponse<T>] of [src/types/home-types.ts].

    Conventions.
    - JavaScript strings are Rocq strings, in UTF-8.  [toLowerCase] is
      lower-casing on ASCII text, where only the letters [A]-[Z] change;
      [toLowerCase_unicode] is lower-casing on any text, over the Unicode
      tables taken as a parameter.
    - An optional field [f?: T] is an [option T]; [None] is [undefined].
    - Component state is threaded explicitly; every observable action
      (state setter, notification, prompt, service call) is appended to a
      trace, so that ordering properties can be stated.
    - An awaited service call is an [Outcome]: the promise either resolves
      to an envelope or rejects. *)

From Stdlib Require Import ZArith Lia Ascii String.
From stdpp Require Import base strings list gmap.

Local Open Scope string_scope.

(** ** JavaScript strings *)

(** Code unit of [A]-[Z]. *)
Definition is_upper (c : ascii) : bool :=
  let n := nat_of_ascii c in (65 <=? n)%nat && (n <=? 90)%nat.

Definition lower_char (c : ascii) : ascii :=
  if is_upper c then ascii_of_nat (nat_of_ascii c + 32) else c.

(** [String.prototype.toLowerCase] on ASCII text; [toLowerCase_unicode]
    below is the function on any text. *)
Fixpoint toLowerCase (s : string) : string :=
  match s with
  | EmptyString => EmptyString
  | String c s' => String (lower_char c) (toLowerCase s')
  end.

(** [s.startsWith(t)]. *)
Fixpoint startsWith (s t : string) : bool :=
  match t, s with
  | EmptyString, _ => true
  | String _ _, EmptyString => false
  | String b t', String a s' => bool_decide (a = b) && startsWith s' t'
  end.

(** [s.includes(t)]: [t] occurs in [s] at some position. *)
Fixpoint includes (s t : string) : bool :=
  startsWith s t ||
  match s with
  | EmptyString => false
  | String _ s' => includes s' t
  end.

(** Truthiness of a string: only the empty string is falsy. *)
Definition truthy (s : string) : bool :=
  match s with EmptyString => false | String _ _ => true end.

(** [a || b] for an optional string [a] and a string literal [b]. *)
Definition or_default (a : option string) (b : string) : string :=
  match a with
  | Some s => if truthy s then s else b
  | None => b
  end.

(** *** Specification side: substrings *)

(** [t] is a substring of [s]. *)
Definition substring_of (t s : string) : Prop :=
  ∃ pre post, s = pre +:+ t +:+ post.

(** Two code units that differ at most by the case of a letter. *)
Definition same_char_nocase (a b : ascii) : Prop :=
  a = b
  ∨ (is_upper a = true ∧ nat_of_ascii b = (nat_of_ascii a + 32)%nat)
  ∨ (is_upper b = true ∧ nat_of_ascii a = (nat_of_ascii b + 32)%nat).

(** Two strings equal up to the case of their letters. *)
Inductive same_nocase : string → string → Prop :=
| same_nocase_nil : same_nocase EmptyString EmptyString
| same_nocase_cons a b s t :
    same_char_nocase a b → same_nocase s t →
    same_nocase (String a s) (String b t).

(** [t] occurs in [s] when the case of letters is ignored. *)
Definition substring_nocase (t s : string) : Prop :=
  ∃ pre mid post, s = pre +:+ mid +:+ post ∧ same_nocase mid t.

(** ** Unicode text *)

(** A model string is the UTF-8 form of a JavaScript string (a string of
    ASCII text is its own UTF-8 form).  On well-formed strings one string
    occurs in another as a sequence of UTF-8 bytes exactly when it does as
    a sequence of UTF-16 code units, so [includes] is the same test on
    both forms. *)

Definition is_ascii_char (c : ascii) : bool := (N_of_ascii c <? 128)%N.

(** Text made of ASCII characters only. *)
Fixpoint is_ascii (s : string) : bool :=
  match s with
  | EmptyString => true
  | String c s' => is_ascii_char c && is_ascii s'
  end.

(** U+FFFD, read for a byte that starts no UTF-8 sequence. *)
Definition replacement_character : N := 65533.

(** The six payload bits of a continuation byte. *)
Definition continuation (c : ascii) : option N :=
  let n := N_of_ascii c in
  if ((128 <=? n) && (n <? 192))%N then Some (n - 128)%N else None.

(** The code points of a UTF-8 string. *)
Fixpoint utf8_decode (s : string) : list N :=
  match s with
  | EmptyString => []
  | String b0 s1 =>
      let n0 := N_of_ascii b0 in
      let bad := replacement_character :: utf8_decode s1 in
      if (n0 <? 128)%N then n0 :: utf8_decode s1
      else
        match s1 with
        | EmptyString => bad
        | String b1 s2 =>
            match continuation b1 with
            | None => bad
            | Some n1 =>
                if ((192 <=? n0) && (n0 <? 224))%N then
                  ((n0 - 192) * 64 + n1)%N :: utf8_decode s2
                else
                  match s2 with
                  | EmptyString => bad
                  | String b2 s3 =>
                      match continuation b2 with
                      | None => bad
                      | Some n2 =>
                          if ((224 <=? n0) && (n0 <? 240))%N then
                            ((n0 - 224) * 4096 + n1 * 64 + n2)%N
                            :: utf8_decode s3
                          else
                            match s3 with
                            | EmptyString => bad
                            | String b3 s4 =>
                                match continuation b3 with
                                | None => bad
                                | Some n3 =>
                                    if ((240 <=? n0) && (n0 <? 248))%N then
                                      ((n0 - 240) * 262144 + n1 * 4096
                                       + n2 * 64 + n3)%N
                                      :: utf8_decode s4
                                    else bad
                                end
                            end
                      end
                  end
            end
        end
  end.

Definition byte (n : N) : ascii := ascii_of_N n.

(** The UTF-8 bytes of one code point, in front of [rest]. *)
Definition utf8_encode_one (c : N) (rest : string) : string :=
  if (c <? 128)%N then String (byte c) rest
  else if (c <? 2048)%N then
    String (byte (192 + c / 64)) (String (byte (128 + c mod 64)) rest)
  else if (c <? 65536)%N then
    String (byte (224 + c / 4096))
      (String (byte (128 + c / 64 mod 64))
         (String (byte (128 + c mod 64)) rest))
  else
    String (byte (240 + c / 262144))
      (String (byte (128 + c / 4096 mod 64))
         (String (byte (128 + c / 64 mod 64))
            (String (byte (128 + c mod 64)) rest))).

Fixpoint utf8_encode (l : list N) : string :=
  match l with
  | [] => EmptyString
  | c :: l' => utf8_encode_one c (utf8_encode l')
  end.

(** The part of the Unicode Character Database that lower-casing reads:
    the simple lower-case mapping of [UnicodeData.txt] and the properties
    [Cased] and [Case_Ignorable]. *)
Class UnicodeData : Type := {
  simple_lower : N → N;
  cased : N → bool;
  case_ignorable : N → bool
}.

(** A cased letter after zero or more case-ignorable characters, read
    from the start of [l]. *)
Fixpoint cased_after_ignorable `{UnicodeData} (l : list N) : bool :=
  match l with
  | [] => false
  | c :: l' => cased c || (case_ignorable c && cased_after_ignorable l')
  end.

(** The condition [Final_Sigma] of [SpecialCasing.txt] for a character
    with the characters [before] it (nearest first) and [after] it. *)
Definition final_sigma `{UnicodeData} (before after : list N) : bool :=
  cased_after_ignorable before && negb (cased_after_ignorable after).

(** The lower-case mapping of the character [c] in its context: the two
    language-insensitive entries of [SpecialCasing.txt] (U+0130, and
    U+03A3 under [Final_Sigma]), and the simple mapping otherwise. *)
Definition lower_mapping `{UnicodeData} (before : list N) (c : N)
    (after : list N) : list N :=
  if (c =? 304)%N then [105; 775]%N
  else if (c =? 931)%N && final_sigma before after then [962]%N
  else [simple_lower c].

(** Default case conversion to lower case of the characters [l] that
    follow the characters [before] (nearest first). *)
Fixpoint lower_code_points `{UnicodeData} (before l : list N) : list N :=
  match l with
  | [] => []
  | c :: after =>
      (lower_mapping before c after
       ++ lower_code_points (c :: before) after)%list
  end.

(** [String.prototype.toLowerCase] on any text. *)
Definition toLowerCase_unicode `{UnicodeData} (s : string) : string :=
  utf8_encode (lower_code_points [] (utf8_decode s)).

(** The table agrees with [lower_char] on ASCII: [A]-[Z] go to [a]-[z]
    and the other ASCII characters to themselves. *)
Definition agrees_on_ascii `{UnicodeData} : Prop :=
  ∀ c, (c < 128)%N → simple_lower c = N_of_ascii (lower_char (ascii_of_N c)).

Definition in_range (lo hi c : N) : bool := ((lo <=? c) && (c <=? hi))%N.

(** An excerpt of the database: Basic Latin, Latin-1 Supplement, the
    combining diacritical marks and the basic Greek letters. *)
Definition ucd_excerpt : UnicodeData :=
  {| simple_lower := λ c,
       if in_range 65 90 c then (c + 32)%N
       else if in_range 192 222 c && negb (c =? 215)%N then (c + 32)%N
       else if in_range 913 939 c && negb (c =? 930)%N then (c + 32)%N
       else c;
     cased := λ c,
       in_range 65 90 c || in_range 97 122 c
       || (c =? 170)%N || (c =? 181)%N || (c =? 186)%N
       || (in_range 192 255 c && negb (c =? 215)%N && negb (c =? 247)%N)
       || (in_range 913 939 c && negb (c =? 930)%N)
       || in_range 945 969 c;
     case_ignorable := λ c,
       (c =? 39)%N || (c =? 46)%N || (c =? 58)%N || (c =? 94)%N
       || (c =? 96)%N || (c =? 168)%N || (c =? 173)%N || (c =? 175)%N
       || (c =? 180)%N || (c =? 183)%N || (c =? 184)%N
       || in_range 768 879 c |}.

(** ** JavaScript numbers *)

(** A number as far as this code can tell numbers apart: [NaN] or an
    integer.  [-0] and [+0] are both [Num 0] (both are falsy). *)
Inductive JsNumber : Type :=
| NaN
| Num (z : Z).

(** [n || 0]: [NaN] and zero are falsy. *)
Definition or_zero (n : JsNumber) : JsNumber :=
  match n with
  | NaN => Num 0
  | Num z => if (z =? 0)%Z then Num 0 else Num z
  end.

(** White space skipped by [parseInt] (tab, LF, VT, FF, CR, space). *)
Definition is_white (c : ascii) : bool :=
  let n := nat_of_ascii c in
  ((9 <=? n)%nat && (n <=? 13)%nat) || (n =? 32)%nat.

Fixpoint trimStart (s : string) : string :=
  match s with
  | EmptyString => EmptyString
  | String c s' => if is_white c then trimStart s' else s
  end.

(** Value of [c] as a digit of the given radix (10 or 16). *)
Definition digit_value (radix : Z) (c : ascii) : option Z :=
  let n := Z.of_nat (nat_of_ascii c) in
  let v :=
    if (48 <=? n)%Z && (n <=? 57)%Z then Some (n - 48)%Z
    else if (97 <=? n)%Z && (n <=? 102)%Z then Some (n - 87)%Z
    else if (65 <=? n)%Z && (n <=? 70)%Z then Some (n - 55)%Z
    else None in
  match v with
  | Some d => if (d <? radix)%Z then Some d else None
  | None => None
  end.

(** Longest prefix of digits, as a number; [acc] is [None] until a digit
    has been read. *)
Fixpoint read_digits (radix : Z) (acc : option Z) (s : string) : option Z :=
  match s with
  | EmptyString => acc
  | String c s' =>
      match digit_value radix c with
      | Some d => read_digits radix (Some (radix * default 0%Z acc + d)%Z) s'
      | None => acc
      end
  end.

(** Sign prefix: the sign and the rest of the string. *)
Definition strip_sign (s : string) : Z * string :=
  match s with
  | String "-" s' => ((-1)%Z, s')
  | String "+" s' => (1%Z, s')
  | _ => (1%Z, s)
  end.

(** Radix prefix [0x] / [0X]: the radix and the rest of the string. *)
Definition strip_radix (s : string) : Z * string :=
  match s with
  | String "0" (String "x" s') => (16%Z, s')
  | String "0" (String "X" s') => (16%Z, s')
  | _ => (10%Z, s)
  end.

(** [Number.parseInt(s)] with no radix argument.  The value of the digits
    is kept exact: the rounding of a long run of digits to a double, and
    its overflow to [Infinity], are left out; neither yields [NaN]. *)
Definition parseInt (s : string) : JsNumber :=
  let '(sign, s1) := strip_sign (trimStart s) in
  let '(radix, s2) := strip_radix s1 in
  match read_digits radix None s2 with
  | None => NaN
  | Some m => Num (sign * m)
  end.

(** ** JavaScript dates *)

(** The platform's [Date]: a time value is a number of milliseconds since
    the epoch.  [Date_parse s] is the time value of [new Date(s)], [None]
    for an invalid date. *)
Class JsDate : Type := {
  Date_parse : string → option Z;
  toISOString : Z → string;
  getFullYear : Z → Z;
  getMonth : Z → Z
}.

(** [d < now] for a date [d] and a valid date [now]: the time values are
    compared, and an invalid date (NaN) compares false. *)
Definition date_lt (d : option Z) (now : Z) : bool :=
  match d with
  | Some t => (t <? now)%Z
  | None => false
  end.

(** *** A reference instance: [datetime-local] text read as UTC *)

(** The value of a non-empty string of decimal digits. *)
Definition decimal (s : string) : option Z :=
  match s with
  | EmptyString => None
  | String _ _ =>
      (fix go (acc : Z) (s : string) : option Z :=
         match s with
         | EmptyString => Some acc
         | String c s' =>
             match digit_value 10 c with
             | Some d => go (10 * acc + d)%Z s'
             | None => None
             end
         end) 0%Z s
  end.

(** Days from the epoch to a civil date of the proleptic Gregorian
    calendar. *)
Definition days_from_civil (y m d : Z) : Z :=
  let y := if (m <=? 2)%Z then (y - 1)%Z else y in
  let era := (y / 400)%Z in
  let yoe := (y - era * 400)%Z in
  let mp := if (2 <? m)%Z then (m - 3)%Z else (m + 9)%Z in
  let doy := ((153 * mp + 2) / 5 + d - 1)%Z in
  let doe := (yoe * 365 + yoe / 4 - yoe / 100 + doy)%Z in
  (era * 146097 + doe - 719468)%Z.

(** The civil date (year, month from 1, day) of a day count. *)
Definition civil_from_days (z : Z) : Z * Z * Z :=
  let z := (z + 719468)%Z in
  let era := (z / 146097)%Z in
  let doe := (z - era * 146097)%Z in
  let yoe := ((doe - doe / 1460 + doe / 36524 - doe / 146096) / 365)%Z in
  let doy := (doe - (365 * yoe + yoe / 4 - yoe / 100))%Z in
  let mp := ((5 * doy + 2) / 153)%Z in
  let d := (doy - (153 * mp + 2) / 5 + 1)%Z in
  let m := if (mp <? 10)%Z then (mp + 3)%Z else (mp - 9)%Z in
  let y := (yoe + era * 400)%Z in
  (if (m <=? 2)%Z then (y + 1)%Z else y, m, d).

Definition ms_per_day : Z := 86400000.

(** [YYYY-MM-DDTHH:MM], the value format of a [datetime-local] input. *)
Definition parse_datetime_local (s : string) : option Z :=
  if negb (String.length s =? 16)%nat then None
  else if negb (bool_decide (String.get 4 s = Some "-"%char)
                && bool_decide (String.get 7 s = Some "-"%char)
                && bool_decide (String.get 10 s = Some "T"%char)
                && bool_decide (String.get 13 s = Some ":"%char)) then None
  else
    match decimal (substring 0 4 s), decimal (substring 5 2 s),
          decimal (substring 8 2 s), decimal (substring 11 2 s),
          decimal (substring 14 2 s) with
    | Some y, Some m, Some d, Some hh, Some mm =>
        if (1 <=? m)%Z && (m <=? 12)%Z && (1 <=? d)%Z && (d <=? 31)%Z
           && (hh <=? 23)%Z && (mm <=? 59)%Z
        then Some (days_from_civil y m d * ms_per_day
                   + hh * 3600000 + mm * 60000)%Z
        else None
    | _, _, _, _, _ => None
    end.

(** [n] in decimal, on [w] digits. *)
Fixpoint pad (w : nat) (n : Z) : string :=
  match w with
  | O => EmptyString
  | S w' =>
      pad w' (n / 10) +:+
      String (ascii_of_nat (48 + Z.to_nat (n mod 10))) EmptyString
  end.

(** [YYYY-MM-DDTHH:MM:SS.sssZ] for years 0 to 9999. *)
Definition format_iso (t : Z) : string :=
  let '(y, m, d) := civil_from_days (t / ms_per_day) in
  let ms := (t mod ms_per_day)%Z in
  pad 4 y +:+ "-" +:+ pad 2 m +:+ "-" +:+ pad 2 d +:+ "T"
  +:+ pad 2 (ms / 3600000) +:+ ":" +:+ pad 2 (ms / 60000 mod 60)
  +:+ ":" +:+ pad 2 (ms / 1000 mod 60) +:+ "." +:+ pad 3 (ms mod 1000)
  +:+ "Z".

(** Dates of a browser whose local time zone is UTC; [getMonth] counts
    from zero. *)
Definition utc_dates : JsDate :=
  {| Date_parse := parse_datetime_local;
     toISOString := format_iso;
     getFullYear := λ t, (civil_from_days (t / ms_per_day)).1.1;
     getMonth := λ t, ((civil_from_days (t / ms_per_day)).1.2 - 1)%Z |}.

(** ** Shared types *)

(** [ApiResponse<T>] of [src/types/home-types.ts]. *)
Record ApiResponse (T : Type) : Type := mkApiResponse {
  success : bool;
  data : option T;
  message : option string;
  error : option string
}.
Arguments mkApiResponse {T}.
Arguments success {T}.
Arguments data {T}.
Arguments message {T}.
Arguments error {T}.

(** The envelope invariant of the specification: with [success] the data
    is present and the error absent; without it the error (or message)
    is present and the data absent. *)
Definition exactly_one_payload {T} (r : ApiResponse T) : Prop :=
  (success r = true → is_Some (data r) ∧ error r = None)
  ∧ (success r = false →
     (is_Some (error r) ∨ is_Some (message r)) ∧ data r = None).

(** The shapes of [@/types/events-types], as far as the views use them. *)
Record Session : Type := mkSession {
  session_id : string;
  session_title : string;
  session_description : string;
  session_type : string;
  session_startTime : string;
  session_endTime : string;
  session_speaker : string
}.

Record EventDay : Type := mkEventDay {
  day_id : string;
  day_dayNumber : Z;
  day_name : string;
  day_description : string;
  day_times : option (list Session)
}.

Record Event : Type := mkEvent {
  event_id : string;
  event_name : string;
  event_description : string;
  event_startDate : string;
  event_endDate : string;
  event_totalDays : Z
}.

Record EventWithDays : Type := mkEventWithDays {
  event : option Event;
  days : option (list EventDay)
}.

(** [CreateEventData]; [extra] holds the properties that a computed key
    outside the six declared ones adds to the object. *)
Record CreateEventData : Type := mkCreateEventData {
  name : string;
  description : string;
  startDate : string;
  endDate : string;
  year : JsNumber;
  month : JsNumber;
  extra : gmap string string
}.

(** The outcome of an awaited service call. *)
Inductive Outcome (T : Type) : Type :=
| Resolved (r : ApiResponse T)
| Rejected.
Arguments Resolved {T}.
Arguments Rejected {T}.

(** ** The service layer *)

(** Modelled from the spec: what the one network call of a service
    function comes back with.  The service functions ([getAllEvents],
    [addEvent], [deleteEvent] of [@/service/events-apis]) are not among
    the sources; sections 4.1 and 7 of the specification name the cases:
    the remote store accepts the request, it refuses it with an error or
    a message, or the call fails with a network or parse error. *)
Inductive Reply (T : Type) : Type :=
| Accepted (payload : T) (note : option string)
| RefusedWithError (error : string) (note : option string)
| RefusedWithMessage (note : string)
| NetworkError (reason : string)
| ParseError (reason : string).
Arguments Accepted {T}.
Arguments RefusedWithError {T}.
Arguments RefusedWithMessage {T}.
Arguments NetworkError {T}.
Arguments ParseError {T}.

(** Modelled from the spec: the normalisation of a reply into the uniform
    shape ([success], [data], [message]/[error]) of section 2; network
    and parse errors are folded into [{success: false, error}]
    (section 4.1). *)
Definition normalize {T} (reply : Reply T) : ApiResponse T :=
  match reply with
  | Accepted payload note => mkApiResponse true (Some payload) note None
  | RefusedWithError e note => mkApiResponse false None note (Some e)
  | RefusedWithMessage note => mkApiResponse false None (Some note) None
  | NetworkError reason => mkApiResponse false None None (Some reason)
  | ParseError reason => mkApiResponse false None None (Some reason)
  end.

(** Modelled from the spec: a service function performs one network call
    and resolves to the normalised reply, never throwing for ordinary
    failure (section 4.1). *)
Definition service_call {T} (reply : Reply T) : Outcome T :=
  Resolved (normalize reply).

(** ** Effects *)

(** What a handler does that can be observed from outside. *)
Inductive Action : Type :=
| PreventDefault
| Confirm (text : string) (answer : bool)
| Toast (title text : string)
| GetAllEvents
| DeleteEvent (id : string)
| AddEvent (payload : CreateEventData)
| SetEvents (v : EventWithDays)
| SetIsLoading (b : bool)
| SetIsDeleting (v : option string)
| SetFormData (v : CreateEventData).

(** How a block ends: normally with a value, or by throwing. *)
Inductive Completion (A : Type) : Type :=
| Normal (a : A)
| Thrown.
Arguments Normal {A}.
Arguments Thrown {A}.

(** A handler over component state [S]: from a state to a completion, the
    new state and the actions performed, oldest first. *)
Definition Run (S A : Type) : Type := S → Completion A * S * list Action.

Definition ret {S A} (a : A) : Run S A := λ s, (Normal a, s, []).

Definition throw {S A} : Run S A := λ s, (Thrown, s, []).

Definition bind {S A B} (m : Run S A) (k : A → Run S B) : Run S B :=
  λ s,
    match m s with
    | (Normal a, s1, t1) =>
        match k a s1 with
        | (c, s2, t2) => (c, s2, (t1 ++ t2)%list)
        end
    | (Thrown, s1, t1) => (Thrown, s1, t1)
    end.

Notation "x <- m ;; k" := (bind m (λ x, k))
  (at level 100, m at next level, right associativity, only parsing).
Notation "m ;;; k" := (bind m (λ _, k))
  (at level 100, right associativity, only parsing).

(** Run [m] after a prefix that already performed the actions [t1]. *)
Definition after {S A} (t1 : list Action) (m : Run S A) : Run S A :=
  λ s, match m s with (c, s2, t2) => (c, s2, (t1 ++ t2)%list) end.

(** [try { body } catch { handler } finally { fin }]: [fin] runs on every
    path; a [handler] that throws still runs [fin] and then rethrows. *)
Definition try_catch_finally {S A}
    (body handler : Run S A) (fin : Run S unit) : Run S A :=
  λ s,
    match body s with
    | (Normal a, s1, t1) => after t1 (fin ;;; ret a) s1
    | (Thrown, s1, t1) =>
        match handler s1 with
        | (Normal a, s2, t2) => after (t1 ++ t2)%list (fin ;;; ret a) s2
        | (Thrown, s2, t2) => after (t1 ++ t2)%list (fin ;;; throw) s2
        end
    end.

Definition emit {S} (a : Action) : Run S unit := λ s, (Normal tt, s, [a]).

Definition get {S} : Run S S := λ s, (Normal s, s, []).

Definition update {S} (a : Action) (f : S → S) : Run S unit :=
  λ s, (Normal tt, f s, [a]).

(** [await p] for a promise with the given outcome. *)
Definition await {S T} (o : Outcome T) : Run S (ApiResponse T) :=
  match o with
  | Resolved r => ret r
  | Rejected => throw
  end.

Definition toast {S} (title text : string) : Run S unit :=
  emit (Toast title text).

Definition final_state {S A} (r : Completion A * S * list Action) : S :=
  r.1.2.

Definition trace {S A} (r : Completion A * S * list Action) : list Action :=
  r.2.

Definition completion {S A} (r : Completion A * S * list Action)
  : Completion A := r.1.1.

(** The notifications of a trace, oldest first. *)
Definition toasts (t : list Action) : list (string * string) :=
  omap (λ a, match a with Toast x y => Some (x, y) | _ => None end) t.

(** ** The events management view *)

Module EventsManagement.

(** The [useState] cells of the component. *)
Record State : Type := mkState {
  searchTerm : string;
  events : option EventWithDays;
  isLoading : bool;
  isDeleting : option string
}.

(** What the outside world answers during one handler run: the user's
    answer to the confirmation prompt and the outcomes of the two service
    calls. *)
Record World : Type := mkWorld {
  confirm : string → bool;
  getAllEvents : Outcome EventWithDays;
  deleteEvent : string → Outcome unit
}.

Definition setEvents (v : EventWithDays) : Run State unit :=
  update (SetEvents v)
    (λ s, mkState (searchTerm s) (Some v) (isLoading s) (isDeleting s)).

Definition setIsLoading (b : bool) : Run State unit :=
  update (SetIsLoading b)
    (λ s, mkState (searchTerm s) (events s) b (isDeleting s)).

Definition setIsDeleting (v : option string) : Run State unit :=
  update (SetIsDeleting v)
    (λ s, mkState (searchTerm s) (events s) (isLoading s) v).

(** [fetchEvents] up to its [await]: the loading flag is raised and the
    request is issued. *)
Definition fetchEvents_call : Run State unit :=
  setIsLoading true ;;;
  emit GetAllEvents.

(** [fetchEvents] from the point where the awaited promise settles. *)
Definition fetchEvents_resume (w : World) : Run State unit :=
  try_catch_finally
    (result <- await (getAllEvents w) ;;
     match success result, data result with
     | true, Some d => setEvents d
     | _, _ =>
         toast "Error" (or_default (error result) "Failed to fetch events")
     end)
    (toast "Error" "An unexpected error occurred")
    (setIsLoading false).

Definition fetchEvents (w : World) : Run State unit :=
  fetchEvents_call ;;;
  fetchEvents_resume w.

(** [handleDeleteEvent].  On success the handler calls [fetchEvents()]
    without awaiting it: that call runs up to its own [await] and hands
    control back, the [finally] block runs, and the rest of the fetch
    runs once the handler is done. *)
Definition handleDeleteEvent (w : World) (eventId : string)
  : Run State unit :=
  let answer := confirm w "Are you sure you want to delete this event?" in
  emit (Confirm "Are you sure you want to delete this event?" answer) ;;;
  if negb answer then ret tt
  else
    setIsDeleting (Some eventId) ;;;
    refetch <-
      try_catch_finally
        (emit (DeleteEvent eventId) ;;;
         result <- await (deleteEvent w eventId) ;;
         if success result then
           toast "Success"
             (or_default (message result) "Event deleted successfully") ;;;
           fetchEvents_call ;;;
           ret true
         else
           toast "Error"
             (or_default (error result) "Failed to delete event") ;;;
           ret false)
        (toast "Error" "An unexpected error occurred" ;;;
         ret false)
        (setIsDeleting None) ;;
    if refetch : bool then fetchEvents_resume w else ret tt.

(** The predicate of the [filter] call. *)
Definition day_matches (term : string) (day : EventDay) : bool :=
  includes (toLowerCase (day_name day)) (toLowerCase term)
  || includes (toLowerCase (day_description day)) (toLowerCase term).

(** [events?.days?.filter(...) || []]. *)
Definition filteredDays (s : State) : list EventDay :=
  match events s with
  | Some ev =>
      match days ev with
      | Some ds => List.filter (day_matches (searchTerm s)) ds
      | None => []
      end
  | None => []
  end.

(** The two ways a delete call can fail, and the way it succeeds. *)
Definition delete_failed (o : Outcome unit) : Prop :=
  o = Rejected ∨ ∃ res, o = Resolved res ∧ success res = false.

Definition delete_succeeded (o : Outcome unit) : Prop :=
  ∃ res, o = Resolved res ∧ success res = true.

(** The text of the confirmation prompt. *)
Definition confirm_text : string :=
  "Are you sure you want to delete this event?".

(** *** Specification side: the selected days *)

(** The fetched days; none while nothing is fetched or the field is
    absent. *)
Definition source_days (s : State) : list EventDay :=
  match events s with
  | Some ev => default [] (days ev)
  | None => []
  end.

(** A day is selected by a search term that occurs, case ignored, in its
    name or in its description. *)
Definition day_selected (term : string) (day : EventDay) : Prop :=
  substring_nocase term (day_name day)
  ∨ substring_nocase term (day_description day).

(** [selects P l l']: [l'] is exactly the subsequence of [l] made of the
    elements that satisfy [P]. *)
Inductive selects {A} (P : A → Prop) : list A → list A → Prop :=
| selects_nil : selects P [] []
| selects_keep x l l' : P x → selects P l l' → selects P (x :: l) (x :: l')
| selects_drop x l l' : ¬ P x → selects P l l' → selects P (x :: l) l'.

(** The predicate of the [filter] call, on any text. *)
Definition day_matches_unicode `{UnicodeData} (term : string)
    (day : EventDay) : bool :=
  includes (toLowerCase_unicode (day_name day)) (toLowerCase_unicode term)
  || includes (toLowerCase_unicode (day_description day))
       (toLowerCase_unicode term).

(** [events?.days?.filter(...) || []], on any text. *)
Definition filteredDays_unicode `{UnicodeData} (s : State) : list EventDay :=
  match events s with
  | Some ev =>
      match days ev with
      | Some ds => List.filter (day_matches_unicode (searchTerm s)) ds
      | None => []
      end
  | None => []
  end.

(** The search term and the names and descriptions of the fetched days
    are ASCII text. *)
Definition ascii_state (s : State) : Prop :=
  is_ascii (searchTerm s) = true
  ∧ ∀ day, day ∈ source_days s →
      is_ascii (day_name day) = true
      ∧ is_ascii (day_description day) = true.

(** *** The rest of the view *)

(** [day.times?.length || 0]. *)
Definition times_length (day : EventDay) : nat :=
  match day_times day with
  | Some ts => length ts
  | None => 0
  end.

(** [getTotalTimes]: the [reduce] over the days, from the left, starting
    at 0. *)
Definition getTotalTimes (days : list EventDay) : nat :=
  fold_left (λ total day, total + times_length day) days 0.

(** The cells as [useState] initialises them. *)
Definition initialState : State := mkState "" None true None.

(** The effect run once on mount. *)
Definition mount (w : World) : Run State unit := fetchEvents w.

(** The click handler of the [Delete Event] menu item, if an item with a
    handler is rendered: while loading only the spinner is rendered, the
    card of the current event is rendered when there is one, and only an
    administrator gets the item that calls [handleDeleteEvent]. *)
Definition deleteItemOnClick (isAdmin : bool) (w : World) (s : State)
  : option (Run State unit) :=
  if isLoading s then None
  else
    match events s with
    | Some ev =>
        match event ev with
        | Some e =>
            if isAdmin then Some (handleDeleteEvent w (event_id e))
            else None
        | None => None
        end
    | None => None
    end.

End EventsManagement.

(** ** The create-event view *)

Module CreateEvent.

Record State : Type := mkState {
  isLoading : bool;
  formData : CreateEventData
}.

(** The clock readings of one submission ([new Date()] is evaluated once
    on entry and twice when the form is reset) and the outcome of the
    creation call. *)
Record World : Type := mkWorld {
  now_submit : Z;
  now_reset_year : Z;
  now_reset_month : Z;
  addEvent : CreateEventData → Outcome unit
}.

Definition setIsLoading (b : bool) : Run State unit :=
  update (SetIsLoading b) (λ s, mkState b (formData s)).

Definition setFormData (v : CreateEventData) : Run State unit :=
  update (SetFormData v) (λ s, mkState (isLoading s) v).

(** [new Date(s).toISOString()]: throws a [RangeError] on an invalid
    date. *)
Definition toISOString_of `{JsDate} (s : string) : Run State string :=
  match Date_parse s with
  | Some t => ret (toISOString t)
  | None => throw
  end.

(** The object the form is reset to. *)
Definition defaults `{JsDate} (w : World) : CreateEventData :=
  {| name := "";
     description := "";
     startDate := "";
     endDate := "";
     year := Num (getFullYear (now_reset_year w));
     month := Num (getMonth (now_reset_month w) + 1);
     extra := ∅ |}.

(** [{...formData, startDate: sd, endDate: ed}]. *)
Definition with_dates (d : CreateEventData) (sd ed : string)
  : CreateEventData :=
  {| name := name d;
     description := description d;
     startDate := sd;
     endDate := ed;
     year := year d;
     month := month d;
     extra := extra d |}.

Definition handleSubmit `{JsDate} (w : World) : Run State unit :=
  emit PreventDefault ;;;
  s <- get ;;
  let formData := formData s in
  let now := now_submit w in
  if truthy (startDate formData)
     && date_lt (Date_parse (startDate formData)) now then
    toast "Error" "Start Date cannot be in the past."
  else if truthy (endDate formData)
          && date_lt (Date_parse (endDate formData)) now then
    toast "Error" "End Date cannot be in the past."
  else
    setIsLoading true ;;;
    try_catch_finally
      (sd <- toISOString_of (startDate formData) ;;
       ed <- toISOString_of (endDate formData) ;;
       let eventData := with_dates formData sd ed in
       emit (AddEvent eventData) ;;;
       result <- await (addEvent w eventData) ;;
       if success result then
         toast "Success"
           (or_default (message result) "Event created successfully") ;;;
         setFormData (defaults w)
       else
         toast "Error" (or_default (error result) "Failed to create event"))
      (toast "Error" "An unexpected error occurred")
      (setIsLoading false).

(** [{...prev, [name]: v}] where [v] is a number for the keys [year] and
    [month] and the raw string otherwise. *)
Definition assign (prev : CreateEventData) (key value : string)
  : CreateEventData :=
  let n := or_zero (parseInt value) in
  if decide (key = "year") then
    mkCreateEventData (name prev) (description prev) (startDate prev)
      (endDate prev) n (month prev) (extra prev)
  else if decide (key = "month") then
    mkCreateEventData (name prev) (description prev) (startDate prev)
      (endDate prev) (year prev) n (extra prev)
  else if decide (key = "name") then
    mkCreateEventData value (description prev) (startDate prev)
      (endDate prev) (year prev) (month prev) (extra prev)
  else if decide (key = "description") then
    mkCreateEventData (name prev) value (startDate prev)
      (endDate prev) (year prev) (month prev) (extra prev)
  else if decide (key = "startDate") then
    mkCreateEventData (name prev) (description prev) value
      (endDate prev) (year prev) (month prev) (extra prev)
  else if decide (key = "endDate") then
    mkCreateEventData (name prev) (description prev) (startDate prev)
      value (year prev) (month prev) (extra prev)
  else
    mkCreateEventData (name prev) (description prev) (startDate prev)
      (endDate prev) (year prev) (month prev) (<[key := value]> (extra prev)).

(** [handleChange] for an input named [key] holding [value]. *)
Definition handleChange (key value : string) : Run State unit :=
  s <- get ;;
  setFormData (assign (formData s) key value).

(** The string stored under [key], if [key] holds a string. *)
Definition string_field (d : CreateEventData) (key : string)
  : option string :=
  if decide (key = "year") then None
  else if decide (key = "month") then None
  else if decide (key = "name") then Some (name d)
  else if decide (key = "description") then Some (description d)
  else if decide (key = "startDate") then Some (startDate d)
  else if decide (key = "endDate") then Some (endDate d)
  else extra d !! key.

(** The number stored under [key], if [key] holds a number. *)
Definition number_field (d : CreateEventData) (key : string)
  : option JsNumber :=
  if decide (key = "year") then Some (year d)
  else if decide (key = "month") then Some (month d)
  else None.

(** *** The rest of the view *)

(** The form as [useState] initialises it, for the two clock readings of
    the initialiser. *)
Definition initialState `{JsDate} (now_year now_month : Z) : State :=
  mkState false
    {| name := "";
       description := "";
       startDate := "";
       endDate := "";
       year := Num (getFullYear now_year);
       month := Num (getMonth now_month + 1);
       extra := ∅ |}.

(** What the user does to the form: a change of an input, or a submission
    (with what the outside world answers to it). *)
Inductive FormEvent : Type :=
| Change (key value : string)
| Submit (w : World).

Definition dispatch `{JsDate} (ev : FormEvent) : Run State unit :=
  match ev with
  | Change key value => handleChange key value
  | Submit w => handleSubmit w
  end.

(** The state after a sequence of events, each handler running to its
    end before the next event. *)
Definition run_events `{JsDate} (evs : list FormEvent) (s : State) : State :=
  fold_left (λ s ev, final_state (dispatch ev s)) evs s.

(** The test of the two guards of [handleSubmit]: the text is not empty
    and its date is before [now]. *)
Definition in_past `{JsDate} (x : string) (now : Z) : bool :=
  truthy x && date_lt (Date_parse x) now.

(** [year] and [month] hold numbers, not NaN. *)
Definition numbers_ok (s : State) : Prop :=
  year (formData s) ≠ NaN ∧ month (formData s) ≠ NaN.

(** The calls of the creation service in a trace, oldest first. *)
Definition addEvent_calls (t : list Action) : list CreateEventData :=
  omap (λ a, match a with AddEvent p => Some p | _ => None end) t.

End CreateEvent.

(** * Properties *)

(** ** Strings *)

Section strings.
Implicit Types (s t : string) (a b : ascii).

Lemma startsWith_iff s t : startsWith s t = true ↔ ∃ post, s = t +:+ post.
Proof.
  revert s. induction t as [|b t IH]; intros s; simpl.
  - split; [intros _; by exists s | by destruct s].
  - destruct s as [|a s]; simpl.
    + split; [done | intros [post H]; discriminate H].
    + rewrite andb_true_iff, bool_decide_eq_true, IH. split.
      * intros [-> [post ->]]. by exists post.
      * intros [post H]. injection H as -> ->. split; [done | by exists post].
Qed.

Lemma includes_iff s t : includes s t = true ↔ substring_of t s.
Proof.
  unfold substring_of. induction s as [|a s IH]; cbn [includes].
  - rewrite orb_false_r, startsWith_iff. split.
    + intros [post H]. by exists "", post.
    + intros [[|c pre] [post H]]; [by exists post | discriminate H].
  - rewrite orb_true_iff, startsWith_iff, IH. split.
    + intros [[post H] | (pre & post & H)].
      * by exists "", post.
      * exists (String a pre), post. simpl. by rewrite H.
    + intros ([|c pre] & post & H); simpl in H.
      * left. by exists post.
      * right. injection H as -> ->. by exists pre, post.
Qed.

Lemma toLowerCase_app s t :
  toLowerCase (s +:+ t) = toLowerCase s +:+ toLowerCase t.
Proof. induction s as [|a s IH]; simpl; [done | by rewrite IH]. Qed.

(** A lower-cased string splits where its source splits. *)
Lemma toLowerCase_split s x y :
  toLowerCase s = x +:+ y →
  ∃ s1 s2, s = s1 +:+ s2 ∧ toLowerCase s1 = x ∧ toLowerCase s2 = y.
Proof.
  revert s. induction x as [|c x IH]; intros s H; simpl in H.
  - by exists "", s.
  - destruct s as [|a s]; [discriminate H|]. simpl in H.
    injection H as Hc H. destruct (IH _ H) as (s1 & s2 & -> & <- & <-).
    exists (String a s1), s2. simpl. by rewrite Hc.
Qed.

Lemma is_upper_iff a :
  is_upper a = true ↔ (65 ≤ nat_of_ascii a ≤ 90)%nat.
Proof.
  unfold is_upper. rewrite andb_true_iff, !Nat.leb_le. lia.
Qed.

Lemma nat_of_lower_upper a :
  is_upper a = true →
  nat_of_ascii (lower_char a) = nat_of_ascii a + 32.
Proof.
  intros Hu. unfold lower_char. rewrite Hu.
  apply is_upper_iff in Hu. apply nat_ascii_embedding. lia.
Qed.

Lemma lower_char_other a : is_upper a = false → lower_char a = a.
Proof. intros Hu. unfold lower_char. by rewrite Hu. Qed.

Lemma nat_of_ascii_inj a b : nat_of_ascii a = nat_of_ascii b → a = b.
Proof.
  intros H. rewrite <- (ascii_nat_embedding a), <- (ascii_nat_embedding b).
  by rewrite H.
Qed.

Lemma same_char_nocase_iff a b :
  same_char_nocase a b ↔ lower_char a = lower_char b.
Proof.
  unfold same_char_nocase. split.
  - intros [-> | [[Ha Hb] | [Hb Ha]]]; [done | |].
    + apply nat_of_ascii_inj. rewrite (nat_of_lower_upper a Ha).
      rewrite lower_char_other; [done|].
      apply not_true_is_false. rewrite is_upper_iff.
      apply is_upper_iff in Ha. lia.
    + apply nat_of_ascii_inj. rewrite (nat_of_lower_upper b Hb).
      rewrite lower_char_other; [done|].
      apply not_true_is_false. rewrite is_upper_iff.
      apply is_upper_iff in Hb. lia.
  - intros H. apply (f_equal nat_of_ascii) in H.
    destruct (is_upper a) eqn:Ha, (is_upper b) eqn:Hb.
    + rewrite !nat_of_lower_upper in H by done.
      left. apply nat_of_ascii_inj. lia.
    + rewrite nat_of_lower_upper, (lower_char_other b) in H by done.
      right; left. by split.
    + rewrite (lower_char_other a), nat_of_lower_upper in H by done.
      right; right. by split.
    + rewrite !lower_char_other in H by done.
      left. by apply nat_of_ascii_inj.
Qed.

Lemma same_nocase_iff s t : same_nocase s t ↔ toLowerCase s = toLowerCase t.
Proof.
  split.
  - induction 1 as [|a b s t Hc _ IH]; simpl; [done|].
    apply same_char_nocase_iff in Hc. by rewrite Hc, IH.
  - revert t. induction s as [|a s IH]; intros [|b t] H; simpl in H;
      try discriminate H.
    + constructor.
    + injection H as Hc H. constructor; [by apply same_char_nocase_iff | by apply IH].
Qed.

(** The test performed by the filter, against its specification. *)
Lemma includes_lower_iff s t :
  includes (toLowerCase s) (toLowerCase t) = true ↔ substring_nocase t s.
Proof.
  rewrite includes_iff. unfold substring_of, substring_nocase. split.
  - intros (pre & post & H).
    apply toLowerCase_split in H as (s1 & s2' & -> & <- & H).
    apply toLowerCase_split in H as (mid & s3 & -> & H & <-).
    exists s1, mid, s3. split; [done | by apply same_nocase_iff].
  - intros (pre & mid & post & -> & H). apply same_nocase_iff in H.
    exists (toLowerCase pre), (toLowerCase post).
    by rewrite !toLowerCase_app, H.
Qed.

Lemma substring_of_nocase s t : substring_of t s → substring_nocase t s.
Proof.
  intros (pre & post & ->). exists pre, t, post. split; [done|].
  by apply same_nocase_iff.
Qed.

End strings.

(** ** Filtering the days *)

Section filtering.
Import EventsManagement.

Lemma day_matches_iff term day :
  day_matches term day = true ↔ day_selected term day.
Proof.
  unfold day_matches, day_selected.
  by rewrite orb_true_iff, !includes_lower_iff.
Qed.

Lemma filter_selects {A} (f : A → bool) (P : A → Prop) (l : list A) :
  (∀ x, f x = true ↔ P x) → selects P l (List.filter f l).
Proof.
  intros Hf. induction l as [|x l IH]; simpl; [constructor|].
  destruct (f x) eqn:Hx.
  - constructor; [by apply Hf | done].
  - constructor; [|done]. rewrite <- Hf. congruence.
Qed.

(** [selects] determines its result, keeps the order, and keeps exactly
    the elements that satisfy the predicate. *)
Lemma selects_unique {A} (P : A → Prop) (l l1 l2 : list A) :
  selects P l l1 → selects P l l2 → l1 = l2.
Proof.
  intros H1. revert l2.
  induction H1 as [|x l l1 Hx _ IH|x l l1 Hx _ IH]; intros l2 H2;
    inversion H2; subst; try done.
  by f_equal; apply IH.
  all: by apply IH.
Qed.

Lemma selects_sublist {A} (P : A → Prop) (l l' : list A) :
  selects P l l' → sublist l' l.
Proof. induction 1; by constructor. Qed.

Lemma selects_elem_of {A} (P : A → Prop) (l l' : list A) x :
  selects P l l' → x ∈ l' ↔ x ∈ l ∧ P x.
Proof.
  induction 1 as [|y l l' Hy _ IH|y l l' Hy _ IH].
  - split; [intros Hx | intros [Hx _]]; by apply elem_of_nil in Hx.
  - rewrite !elem_of_cons, IH. split.
    + intros [-> | [Hx HP]]; [by split; [left|] | by split; [right|]].
    + intros [[-> | Hx] HP]; [by left | by right].
  - rewrite elem_of_cons, IH. split.
    + intros [Hx HP]. by split; [right|].
    + intros [[-> | Hx] HP]; [by destruct Hy | done].
Qed.

Lemma filteredDays_filter s :
  filteredDays s = List.filter (day_matches (searchTerm s)) (source_days s).
Proof.
  unfold filteredDays, source_days.
  destruct (events s) as [[ev [ds|]]|]; done.
Qed.

Lemma filteredDays_selects s :
  selects (day_selected (searchTerm s)) (source_days s) (filteredDays s).
Proof.
  rewrite filteredDays_filter. apply filter_selects.
  intros day. apply day_matches_iff.
Qed.

End filtering.

(** ** Fetching and deleting *)

(** Membership of an action in an explicit trace, decided by inspecting
    the trace. *)
Ltac in_trace H :=
  repeat (apply elem_of_cons in H as [H | H];
          [try discriminate H; try (injection H as H) |]);
  try (apply elem_of_nil in H; destruct H).

Ltac not_in_trace :=
  let H := fresh in intros H; in_trace H.

Section management.
Import EventsManagement.

(** The response on which [fetchEvents] stores data. *)
Lemma fetchEvents_resume_stores w s res d :
  getAllEvents w = Resolved res → success res = true → data res = Some d →
  fetchEvents_resume w s
  = (Normal (), mkState (searchTerm s) (Some d) false (isDeleting s),
     [SetEvents d; SetIsLoading false]).
Proof.
  intros Hw Hs Hd. unfold fetchEvents_resume, try_catch_finally, bind.
  rewrite Hw. simpl. by rewrite Hs, Hd.
Qed.

Lemma fetchEvents_resume_refused w s res :
  getAllEvents w = Resolved res → success res = false ∨ data res = None →
  fetchEvents_resume w s
  = (Normal (), mkState (searchTerm s) (events s) false (isDeleting s),
     [Toast "Error" (or_default (error res) "Failed to fetch events");
      SetIsLoading false]).
Proof.
  intros Hw Hres. unfold fetchEvents_resume, try_catch_finally, bind.
  rewrite Hw. simpl.
  destruct Hres as [-> | ->]; [done | by destruct (success res)].
Qed.

Lemma fetchEvents_resume_rejected w s :
  getAllEvents w = Rejected →
  fetchEvents_resume w s
  = (Normal (), mkState (searchTerm s) (events s) false (isDeleting s),
     [Toast "Error" "An unexpected error occurred"; SetIsLoading false]).
Proof.
  intros Hw. unfold fetchEvents_resume, try_catch_finally, bind.
  by rewrite Hw.
Qed.

(** The three ways a fetch can end. *)
Lemma getAllEvents_cases w :
  (∃ res d, getAllEvents w = Resolved res
            ∧ success res = true ∧ data res = Some d)
  ∨ (∃ res, getAllEvents w = Resolved res
            ∧ (success res = false ∨ data res = None))
  ∨ getAllEvents w = Rejected.
Proof.
  destruct (getAllEvents w) as [res|]; [|by right; right].
  destruct (success res) eqn:Hs, (data res) as [d|] eqn:Hd.
  - left. by exists res, d.
  - right; left. exists res. split; [done | by right].
  - right; left. exists res. split; [done | by left].
  - right; left. exists res. split; [done | by left].
Qed.

Lemma fetchEvents_unfold w s :
  fetchEvents w s
  = after [SetIsLoading true; GetAllEvents] (fetchEvents_resume w)
      (mkState (searchTerm s) (events s) true (isDeleting s)).
Proof.
  unfold fetchEvents, fetchEvents_call, bind, after. simpl.
  by destruct (fetchEvents_resume w _) as [[c s'] t].
Qed.

Lemma handleDeleteEvent_declined w e s :
  confirm w confirm_text = false →
  handleDeleteEvent w e s
  = (Normal (), s,
     [Confirm confirm_text false]).
Proof.
  unfold confirm_text. intros Hc.
  unfold handleDeleteEvent, bind, emit. simpl. by rewrite Hc.
Qed.

Lemma handleDeleteEvent_failed w e s res :
  confirm w confirm_text = true →
  deleteEvent w e = Resolved res → success res = false →
  handleDeleteEvent w e s
  = (Normal (), mkState (searchTerm s) (events s) (isLoading s) None,
     [Confirm confirm_text true;
      SetIsDeleting (Some e); DeleteEvent e;
      Toast "Error" (or_default (error res) "Failed to delete event");
      SetIsDeleting None]).
Proof.
  unfold confirm_text. intros Hc Hd Hs.
  unfold handleDeleteEvent, try_catch_finally, bind, after, emit. simpl.
  rewrite Hc, Hd. simpl. by rewrite Hs.
Qed.

Lemma handleDeleteEvent_rejected w e s :
  confirm w confirm_text = true →
  deleteEvent w e = Rejected →
  handleDeleteEvent w e s
  = (Normal (), mkState (searchTerm s) (events s) (isLoading s) None,
     [Confirm confirm_text true;
      SetIsDeleting (Some e); DeleteEvent e;
      Toast "Error" "An unexpected error occurred";
      SetIsDeleting None]).
Proof.
  unfold confirm_text. intros Hc Hd.
  unfold handleDeleteEvent, try_catch_finally, bind, after, emit. simpl.
  by rewrite Hc, Hd.
Qed.

Lemma handleDeleteEvent_succeeded w e s res :
  confirm w confirm_text = true →
  deleteEvent w e = Resolved res → success res = true →
  handleDeleteEvent w e s
  = after
      [Confirm confirm_text true;
       SetIsDeleting (Some e); DeleteEvent e;
       Toast "Success"
         (or_default (message res) "Event deleted successfully");
       SetIsLoading true; GetAllEvents; SetIsDeleting None]
      (fetchEvents_resume w)
      (mkState (searchTerm s) (events s) true None).
Proof.
  unfold confirm_text. intros Hc Hd Hs.
  unfold handleDeleteEvent, try_catch_finally, bind, after, emit. simpl.
  rewrite Hc, Hd. simpl. rewrite Hs. simpl.
  by destruct (fetchEvents_resume w _) as [[c s'] t].
Qed.

(** C7. [fetchEvents] stores new events only for a response with
    [success] and data; when the response has no [success] or no data, or
    the call throws, the events held before are kept and the only
    notification is one error; the loading flag is cleared at the end of
    every run. *)
Theorem fetchEvents_frame (w : World) (s : State) :
  let r := fetchEvents w s in
  isLoading (final_state r) = false
  ∧ last (trace r) = Some (SetIsLoading false)
  ∧ (∀ v, SetEvents v ∈ trace r →
       ∃ res, getAllEvents w = Resolved res
              ∧ success res = true ∧ data res = Some v)
  ∧ (∀ res d,
       getAllEvents w = Resolved res → success res = true →
       data res = Some d →
       events (final_state r) = Some d
       ∧ trace r = [SetIsLoading true; GetAllEvents; SetEvents d;
                    SetIsLoading false])
  ∧ (∀ res,
       getAllEvents w = Resolved res →
       success res = false ∨ data res = None →
       events (final_state r) = events s
       ∧ trace r = [SetIsLoading true; GetAllEvents;
                    Toast "Error"
                      (or_default (error res) "Failed to fetch events");
                    SetIsLoading false])
  ∧ (getAllEvents w = Rejected →
       events (final_state r) = events s
       ∧ trace r = [SetIsLoading true; GetAllEvents;
                    Toast "Error" "An unexpected error occurred";
                    SetIsLoading false]).
Proof.
  intros r. subst r. rewrite fetchEvents_unfold. unfold after.
  destruct (getAllEvents_cases w)
    as [(res & d & Hw & Hs & Hd) | [(res & Hw & Hres) | Hw]].
  - rewrite (fetchEvents_resume_stores _ _ _ _ Hw Hs Hd).
    split_and!; try done.
    + intros v Hv. in_trace Hv. subst v. by exists res.
    + intros res' d' Hw' _ Hd'. rewrite Hw in Hw'. injection Hw' as <-.
      rewrite Hd in Hd'. by injection Hd' as <-.
    + intros res' Hw' H. rewrite Hw in Hw'. injection Hw' as <-.
      destruct H; congruence.
    + intros Hw'. congruence.
  - rewrite (fetchEvents_resume_refused _ _ _ Hw Hres).
    split_and!; try done.
    + intros v Hv. in_trace Hv.
    + intros res' d' Hw' Hs' Hd'. rewrite Hw in Hw'. injection Hw' as <-.
      destruct Hres; congruence.
    + intros res' Hw' _. rewrite Hw in Hw'. by injection Hw' as <-.
    + intros Hw'. congruence.
  - rewrite (fetchEvents_resume_rejected _ _ Hw).
    split_and!; try done.
    + intros v Hv. in_trace Hv.
    + intros res' d' Hw'. congruence.
    + intros res' Hw'. congruence.
Qed.

Lemma deleteEvent_cases w e :
  delete_failed (deleteEvent w e) ∨ delete_succeeded (deleteEvent w e).
Proof.
  unfold delete_failed, delete_succeeded.
  destruct (deleteEvent w e) as [res|]; [|by left; left].
  destruct (success res) eqn:Hs.
  - right. by exists res.
  - left; right. by exists res.
Qed.



Lemma after_trace {S A} t (m : Run S A) s :
  trace (after t m s) = (t ++ trace (m s))%list.
Proof. unfold after, trace. by destruct (m s) as [[c s'] t']. Qed.

Lemma after_final_state {S A} t (m : Run S A) s :
  final_state (after t m s) = final_state (m s).
Proof. unfold after, final_state. by destruct (m s) as [[c s'] t']. Qed.



(** C4. When the delete call is refused or throws, the handler leaves the
    events as they were: it neither sets them nor starts a fetch.  In any
    run of the handler, events are set only after a successful delete, by
    the fetch that follows it, and only when that fetch succeeds with
    data. *)
Theorem failed_delete_keeps_events (w : World) (e : string) (s : State) :
  delete_failed (deleteEvent w e) →
  let r := handleDeleteEvent w e s in
  events (final_state r) = events s
  ∧ (∀ v, SetEvents v ∉ trace r)
  ∧ (GetAllEvents ∉ trace r)
  ∧ (∀ w' s' v,
       SetEvents v ∈ trace (handleDeleteEvent w' e s') →
       confirm w' confirm_text = true
       ∧ delete_succeeded (deleteEvent w' e)
       ∧ (∃ res, getAllEvents w' = Resolved res
                 ∧ success res = true ∧ data res = Some v)
       ∧ events (final_state (handleDeleteEvent w' e s')) = Some v).
Proof.
  intros Hfail r. subst r. split_and!.
  - destruct (confirm w confirm_text) eqn:Hc.
    + destruct Hfail as [Hd | (res & Hd & Hs)].
      * by rewrite (handleDeleteEvent_rejected _ _ _ Hc Hd).
      * by rewrite (handleDeleteEvent_failed _ _ _ _ Hc Hd Hs).
    + by rewrite (handleDeleteEvent_declined _ _ _ Hc).
  - intros v. destruct (confirm w confirm_text) eqn:Hc.
    + destruct Hfail as [Hd | (res & Hd & Hs)].
      * rewrite (handleDeleteEvent_rejected _ _ _ Hc Hd). not_in_trace.
      * rewrite (handleDeleteEvent_failed _ _ _ _ Hc Hd Hs). not_in_trace.
    + rewrite (handleDeleteEvent_declined _ _ _ Hc). not_in_trace.
  - destruct (confirm w confirm_text) eqn:Hc.
    + destruct Hfail as [Hd | (res & Hd & Hs)].
      * rewrite (handleDeleteEvent_rejected _ _ _ Hc Hd). not_in_trace.
      * rewrite (handleDeleteEvent_failed _ _ _ _ Hc Hd Hs). not_in_trace.
    + rewrite (handleDeleteEvent_declined _ _ _ Hc). not_in_trace.
  - intros w' s' v. destruct (confirm w' confirm_text) eqn:Hc.
    + destruct (deleteEvent_cases w' e)
        as [[Hd | (res & Hd & Hs)] | (res & Hd & Hs)].
      * rewrite (handleDeleteEvent_rejected _ _ _ Hc Hd). not_in_trace.
      * rewrite (handleDeleteEvent_failed _ _ _ _ Hc Hd Hs). not_in_trace.
      * rewrite (handleDeleteEvent_succeeded _ _ _ _ Hc Hd Hs).
        rewrite after_final_state, after_trace. intros Hv.
        apply elem_of_app in Hv as [Hv | Hv]; [in_trace Hv|].
        split; [done|]. split; [by exists res|]. revert Hv.
        destruct (getAllEvents_cases w')
          as [(res' & d & Hw & Hs' & Hd') | [(res' & Hw & Hres) | Hw]].
        -- rewrite (fetchEvents_resume_stores _ _ _ _ Hw Hs' Hd').
           intros Hv. in_trace Hv. subst v. split; [by exists res' | done].
        -- rewrite (fetchEvents_resume_refused _ _ _ Hw Hres).
           not_in_trace.
        -- rewrite (fetchEvents_resume_rejected _ _ Hw). not_in_trace.
    + rewrite (handleDeleteEvent_declined _ _ _ Hc). not_in_trace.
Qed.

Lemma failed_delete_keeps_events_witness :
  let w := mkWorld (λ _, true)
             (Resolved (mkApiResponse true (Some (mkEventWithDays None None))
                          None None))
             (λ _, Rejected) in
  let s := mkState "" (Some (mkEventWithDays None (Some []))) false None in
  let r := handleDeleteEvent w "ev1" s in
  events (final_state r) = events s
  ∧ (∀ v, SetEvents v ∉ trace r)
  ∧ (GetAllEvents ∉ trace r)
  ∧ (∀ w' s' v,
       SetEvents v ∈ trace (handleDeleteEvent w' "ev1" s') →
       confirm w' confirm_text = true
       ∧ delete_succeeded (deleteEvent w' "ev1")
       ∧ (∃ res, getAllEvents w' = Resolved res
                 ∧ success res = true ∧ data res = Some v)
       ∧ events (final_state (handleDeleteEvent w' "ev1" s')) = Some v).
Proof.
  intros w s r. apply (failed_delete_keeps_events w "ev1" s).
  left. reflexivity.
Defined.

(** C9. When the user declines the confirmation prompt, the handler
    returns at once: the state is untouched and the prompt is its only
    action, so there is no delete call, no change of [isDeleting], no
    notification and no change of the events. *)
Theorem declined_delete_is_noop (w : World) (e : string) (s : State) :
  confirm w confirm_text = false →
  let r := handleDeleteEvent w e s in
  completion r = Normal ()
  ∧ final_state r = s
  ∧ trace r = [Confirm confirm_text false]
  ∧ (∀ id, DeleteEvent id ∉ trace r)
  ∧ (∀ v, SetIsDeleting v ∉ trace r)
  ∧ (∀ t x, Toast t x ∉ trace r)
  ∧ (∀ v, SetEvents v ∉ trace r)
  ∧ events (final_state r) = events s
  ∧ isDeleting (final_state r) = isDeleting s.
Proof.
  intros Hc r. subst r. rewrite (handleDeleteEvent_declined _ _ _ Hc).
  split_and!; try done; intros; not_in_trace.
Qed.

Lemma declined_delete_is_noop_witness :
  let w := mkWorld (λ _, false) Rejected (λ _, Rejected) in
  let s := mkState "day" None false (Some "other") in
  let r := handleDeleteEvent w "ev1" s in
  completion r = Normal ()
  ∧ final_state r = s
  ∧ trace r = [Confirm confirm_text false]
  ∧ (∀ id, DeleteEvent id ∉ trace r)
  ∧ (∀ v, SetIsDeleting v ∉ trace r)
  ∧ (∀ t x, Toast t x ∉ trace r)
  ∧ (∀ v, SetEvents v ∉ trace r)
  ∧ events (final_state r) = events s
  ∧ isDeleting (final_state r) = isDeleting s.
Proof.
  intros w s r. apply (declined_delete_is_noop w "ev1" s). reflexivity.
Defined.

(** C1 (as stated, refuted). A response with [success] set, no data and
    an error text is a value of the type [ApiResponse<T>]: the type does
    not uphold the invariant. *)
Lemma ApiResponse_admits_violation :
  ¬ exactly_one_payload
      (mkApiResponse true (None : option EventWithDays) None
         (Some "Internal error")).
Proof. intros [H _]. destruct (H eq_refl) as [[d Hd] _]. discriminate Hd. Qed.

(** C1 (amended). Every response produced by the service layer upholds
    the invariant: a service call always resolves, and in its response
    [success] implies that the data is present and the error absent,
    while the lack of [success] implies that the error or the message is
    present and the data absent.  It is the normalisation of the service
    layer that establishes this, not the type [ApiResponse<T>]. *)
Theorem service_responses_uphold_invariant {T} (reply : Reply T) :
  ∃ res, service_call reply = Resolved res
         ∧ exactly_one_payload res
         ∧ (success res = true ↔ ∃ payload note, reply = Accepted payload note).
Proof.
  exists (normalize reply). split; [done|].
  destruct reply as [payload note|e note|note|reason|reason]; simpl.
  - split; [split; [intros _; split; [by exists payload | done] | done]|].
    split; [intros _; by exists payload, note | done].
  - split; [split; [done | intros _; split; [left; by exists e | done]]|].
    split; [done | intros (? & ? & Hr); discriminate Hr].
  - split; [split; [done | intros _; split; [right; by exists note | done]]|].
    split; [done | intros (? & ? & Hr); discriminate Hr].
  - split; [split; [done | intros _; split; [left; by exists reason | done]]|].
    split; [done | intros (? & ? & Hr); discriminate Hr].
  - split; [split; [done | intros _; split; [left; by exists reason | done]]|].
    split; [done | intros (? & ? & Hr); discriminate Hr].
Qed.

End management.

(** ** Creating an event *)

Section creation.
Import CreateEvent.
Context `{JsDate}.

(** The start-date and end-date guards of [handleSubmit]. *)
Lemma handleSubmit_start_in_past w s :
  truthy (startDate (formData s))
  && date_lt (Date_parse (startDate (formData s))) (now_submit w) = true →
  handleSubmit w s
  = (Normal (), s,
     [PreventDefault; Toast "Error" "Start Date cannot be in the past."]).
Proof.
  intros Hg. unfold handleSubmit, bind, emit, get. simpl. by rewrite Hg.
Qed.

Lemma handleSubmit_end_in_past w s :
  truthy (startDate (formData s))
  && date_lt (Date_parse (startDate (formData s))) (now_submit w) = false →
  truthy (endDate (formData s))
  && date_lt (Date_parse (endDate (formData s))) (now_submit w) = true →
  handleSubmit w s
  = (Normal (), s,
     [PreventDefault; Toast "Error" "End Date cannot be in the past."]).
Proof.
  intros Hg1 Hg2. unfold handleSubmit, bind, emit, get. simpl.
  by rewrite Hg1, Hg2.
Qed.

(** Past the guards, with a date that cannot be converted. *)
Lemma handleSubmit_invalid_date w s :
  truthy (startDate (formData s))
  && date_lt (Date_parse (startDate (formData s))) (now_submit w) = false →
  truthy (endDate (formData s))
  && date_lt (Date_parse (endDate (formData s))) (now_submit w) = false →
  Date_parse (startDate (formData s)) = None
  ∨ Date_parse (endDate (formData s)) = None →
  handleSubmit w s
  = (Normal (), mkState false (formData s),
     [PreventDefault; SetIsLoading true;
      Toast "Error" "An unexpected error occurred"; SetIsLoading false]).
Proof.
  intros Hg1 Hg2 Hd.
  unfold handleSubmit, try_catch_finally, bind, after, emit, get. simpl.
  rewrite Hg1, Hg2. simpl. unfold toISOString_of.
  destruct Hd as [Hd | Hd].
  - by rewrite Hd.
  - destruct (Date_parse (startDate (formData s))); by rewrite ?Hd.
Qed.

(** Past the guards, with both dates converted: the creation call is
    made, and its outcome decides. *)
Lemma handleSubmit_called w s t1 t2 :
  truthy (startDate (formData s))
  && date_lt (Date_parse (startDate (formData s))) (now_submit w) = false →
  truthy (endDate (formData s))
  && date_lt (Date_parse (endDate (formData s))) (now_submit w) = false →
  Date_parse (startDate (formData s)) = Some t1 →
  Date_parse (endDate (formData s)) = Some t2 →
  let p := with_dates (formData s) (toISOString t1) (toISOString t2) in
  handleSubmit w s
  = match addEvent w p with
    | Resolved res =>
        if success res then
          (Normal (), mkState false (defaults w),
           [PreventDefault; SetIsLoading true; AddEvent p;
            Toast "Success"
              (or_default (message res) "Event created successfully");
            SetFormData (defaults w); SetIsLoading false])
        else
          (Normal (), mkState false (formData s),
           [PreventDefault; SetIsLoading true; AddEvent p;
            Toast "Error"
              (or_default (error res) "Failed to create event");
            SetIsLoading false])
    | Rejected =>
        (Normal (), mkState false (formData s),
         [PreventDefault; SetIsLoading true; AddEvent p;
          Toast "Error" "An unexpected error occurred";
          SetIsLoading false])
    end.
Proof.
  intros Hg1 Hg2 Hd1 Hd2 p. subst p.
  unfold handleSubmit, try_catch_finally, bind, after, emit, get. simpl.
  rewrite Hg1, Hg2. simpl. unfold toISOString_of. rewrite Hd1, Hd2. simpl.
  destruct (addEvent w _) as [res|]; simpl; [|done].
  by destruct (success res).
Qed.

(** A string that parses to a date is not the empty string, as soon as
    the empty string is no date. *)
Lemma parsed_is_truthy x t :
  Date_parse "" = None → Date_parse x = Some t → truthy x = true.
Proof. intros He Hx. destruct x; [congruence | done]. Qed.

(** The four ways past the guards, or one of the two guards. *)
Lemma handleSubmit_cases w s :
  let r := handleSubmit w s in
  (∃ x, r = (Normal (), s, [PreventDefault; Toast "Error" x]))
  ∨ (∃ x, r = (Normal (), mkState false (formData s),
               [PreventDefault; SetIsLoading true; Toast "Error" x;
                SetIsLoading false]))
  ∨ (∃ p x,
       (addEvent w p = Rejected
        ∨ ∃ res, addEvent w p = Resolved res ∧ success res = false)
       ∧ r = (Normal (), mkState false (formData s),
              [PreventDefault; SetIsLoading true; AddEvent p;
               Toast "Error" x; SetIsLoading false]))
  ∨ (∃ p x res,
       addEvent w p = Resolved res ∧ success res = true
       ∧ r = (Normal (), mkState false (defaults w),
              [PreventDefault; SetIsLoading true; AddEvent p;
               Toast "Success" x; SetFormData (defaults w);
               SetIsLoading false])).
Proof.
  intros r. subst r.
  destruct (truthy (startDate (formData s))
            && date_lt (Date_parse (startDate (formData s))) (now_submit w))
    eqn:Hg1.
  { left. rewrite (handleSubmit_start_in_past _ _ Hg1). eauto. }
  destruct (truthy (endDate (formData s))
            && date_lt (Date_parse (endDate (formData s))) (now_submit w))
    eqn:Hg2.
  { left. rewrite (handleSubmit_end_in_past _ _ Hg1 Hg2). eauto. }
  assert (Hc1 : Date_parse (startDate (formData s)) = None
                ∨ ∃ t1, Date_parse (startDate (formData s)) = Some t1)
    by (destruct (Date_parse (startDate (formData s))); eauto).
  assert (Hc2 : Date_parse (endDate (formData s)) = None
                ∨ ∃ t2, Date_parse (endDate (formData s)) = Some t2)
    by (destruct (Date_parse (endDate (formData s))); eauto).
  destruct Hc1 as [Hd1 | [t1 Hd1]].
  { right; left.
    rewrite (handleSubmit_invalid_date _ _ Hg1 Hg2 (or_introl Hd1)).
    eauto. }
  destruct Hc2 as [Hd2 | [t2 Hd2]].
  { right; left.
    rewrite (handleSubmit_invalid_date _ _ Hg1 Hg2 (or_intror Hd2)).
    eauto. }
  rewrite (handleSubmit_called _ _ _ _ Hg1 Hg2 Hd1 Hd2).
  destruct (addEvent w _) as [res|] eqn:Ha.
  - destruct (success res) eqn:Hs.
    + do 3 right. eauto 10.
    + right; right; left. eauto 10.
  - right; right; left. eauto 10.
Qed.

(** C2. When the start date of the form is a date strictly before the
    current time, submitting shows an error notification and returns:
    the creation service is not called and the state of the form is
    unchanged. *)
Theorem past_start_date_blocks_submit (w : World) (s : State) (t : Z) :
  Date_parse "" = None →
  Date_parse (startDate (formData s)) = Some t →
  (t < now_submit w)%Z →
  let r := handleSubmit w s in
  completion r = Normal ()
  ∧ trace r
    = [PreventDefault; Toast "Error" "Start Date cannot be in the past."]
  ∧ (∀ p, AddEvent p ∉ trace r)
  ∧ final_state r = s
  ∧ formData (final_state r) = formData s.
Proof.
  intros He Hd Hlt r. subst r.
  rewrite handleSubmit_start_in_past.
  - split_and!; try done. intros p. not_in_trace.
  - rewrite (parsed_is_truthy _ _ He Hd), Hd. simpl. by apply Z.ltb_lt.
Qed.

Lemma not_before_now_passes x t now :
  Date_parse x = Some t → (now ≤ t)%Z →
  truthy x && date_lt (Date_parse x) now = false.
Proof.
  intros -> Hle. simpl. rewrite (proj2 (Z.ltb_ge _ _) Hle).
  apply andb_false_r.
Qed.

(** C8. A submission whose dates both parse and are not before now calls
    the creation service, once, with the form data and the dates in ISO
    form.  When that call returns [success], the form is reset to its
    defaults: the four text fields are empty and year and month are those
    of the clock.  When the call is refused or throws, the form data keep
    their values; so do they when the submission is stopped by a guard or
    by a date that does not parse, in which case no call is made. *)
Theorem handleSubmit_reset (w : World) (s : State) :
  let fd := formData s in
  let r := handleSubmit w s in
  let d := formData (final_state r) in
  (∀ t1 t2 res,
     Date_parse (startDate fd) = Some t1 →
     Date_parse (endDate fd) = Some t2 →
     (now_submit w ≤ t1)%Z → (now_submit w ≤ t2)%Z →
     addEvent w (with_dates fd (toISOString t1) (toISOString t2))
     = Resolved res →
     success res = true →
     addEvent_calls (trace r)
     = [with_dates fd (toISOString t1) (toISOString t2)]
     ∧ name d = "" ∧ description d = "" ∧ startDate d = "" ∧ endDate d = ""
     ∧ year d = Num (getFullYear (now_reset_year w))
     ∧ month d = Num (getMonth (now_reset_month w) + 1)
     ∧ d = defaults w)
  ∧ (∀ t1 t2,
       Date_parse (startDate fd) = Some t1 →
       Date_parse (endDate fd) = Some t2 →
       (now_submit w ≤ t1)%Z → (now_submit w ≤ t2)%Z →
       (addEvent w (with_dates fd (toISOString t1) (toISOString t2))
        = Rejected
        ∨ ∃ res,
            addEvent w (with_dates fd (toISOString t1) (toISOString t2))
            = Resolved res
            ∧ success res = false) →
       addEvent_calls (trace r)
       = [with_dates fd (toISOString t1) (toISOString t2)]
       ∧ d = fd)
  ∧ (in_past (startDate fd) (now_submit w) = true
     ∨ in_past (endDate fd) (now_submit w) = true
     ∨ Date_parse (startDate fd) = None
     ∨ Date_parse (endDate fd) = None →
     addEvent_calls (trace r) = [] ∧ d = fd).
Proof.
  intros fd r d. subst fd r d. split_and!.
  - intros t1 t2 res Hd1 Hd2 Hle1 Hle2 Ha Hs.
    rewrite (handleSubmit_called w s t1 t2
               (not_before_now_passes _ _ _ Hd1 Hle1)
               (not_before_now_passes _ _ _ Hd2 Hle2) Hd1 Hd2).
    cbv zeta. rewrite Ha, Hs. done.
  - intros t1 t2 Hd1 Hd2 Hle1 Hle2 Hf.
    rewrite (handleSubmit_called w s t1 t2
               (not_before_now_passes _ _ _ Hd1 Hle1)
               (not_before_now_passes _ _ _ Hd2 Hle2) Hd1 Hd2).
    cbv zeta. destruct Hf as [-> | (res & -> & ->)]; done.
  - unfold in_past. intros Hcase.
    destruct (sumbool_of_bool
                (truthy (startDate (formData s))
                 && date_lt (Date_parse (startDate (formData s)))
                      (now_submit w))) as [Hg1 | Hg1].
    { by rewrite (handleSubmit_start_in_past _ _ Hg1). }
    destruct (sumbool_of_bool
                (truthy (endDate (formData s))
                 && date_lt (Date_parse (endDate (formData s)))
                      (now_submit w))) as [Hg2 | Hg2].
    { by rewrite (handleSubmit_end_in_past _ _ Hg1 Hg2). }
    destruct Hcase as [Hc | [Hc | Hc]]; [congruence | congruence |].
    by rewrite (handleSubmit_invalid_date _ _ Hg1 Hg2 Hc).
Qed.

(** C10. A change of [year] or [month] stores a number and never NaN: the
    parsed integer, or 0 when the text does not parse (the empty text does
    not).  A change of any other field stores the text as it is and leaves
    [year] and [month] as they were. *)
Theorem handleChange_numbers (key value : string) (s : State) :
  let d := formData (final_state (handleChange key value s)) in
  (key = "year" ∨ key = "month" →
     ∃ z, number_field d key = Some (Num z)
          ∧ (parseInt value = NaN → z = 0%Z)
          ∧ (∀ n, parseInt value = Num n → z = n))
  ∧ parseInt "" = NaN
  ∧ (key ≠ "year" → key ≠ "month" →
       string_field d key = Some value
       ∧ year d = year (formData s) ∧ month d = month (formData s)).
Proof.
  intros d. subst d. unfold handleChange, bind, get, setFormData, update.
  cbn [final_state fst snd formData]. split_and!.
  - assert (Hz : ∃ z, or_zero (parseInt value) = Num z
                      ∧ (parseInt value = NaN → z = 0%Z)
                      ∧ (∀ n, parseInt value = Num n → z = n)).
    { destruct (parseInt value) as [|n]; simpl.
      - exists 0%Z. split_and!; [done | done | intros n Hn; discriminate Hn].
      - destruct (n =? 0)%Z eqn:Hn.
        + apply Z.eqb_eq in Hn as ->. exists 0%Z.
          split_and!; [done | done | by intros n [= <-]].
        + exists n. split_and!; [done | intros Hx; discriminate Hx
                                 | by intros n' [= <-]]. }
    destruct Hz as (z & Hz & Hnan & Hnum).
    intros [-> | ->]; exists z; unfold assign, number_field; simpl;
      by rewrite Hz.
  - reflexivity.
  - intros Hy Hm. unfold assign, string_field.
    repeat case_decide; try done; simpl.
    split_and!; try done. apply lookup_insert_eq.
Qed.

End creation.

(** The example of the specification: an event named
    [Spring Fest 2025] for March 2025, submitted on March 1st with dates
    in the future, is created, and the form goes back to empty texts and
    to the current year and month. *)
Example spring_fest_2025 :
  let form :=
    mkCreateEventData "Spring Fest 2025" "Three days of readings"
      "2025-03-10T09:00" "2025-03-12T18:00" (Num 2025) (Num 3) ∅ in
  let w :=
    CreateEvent.mkWorld 1740823200000 1740823205000 1740823205000
      (λ _, Resolved (mkApiResponse true None (Some "Created") None)) in
  let r := @CreateEvent.handleSubmit utc_dates w
             (CreateEvent.mkState false form) in
  trace r
  = [PreventDefault; SetIsLoading true;
     AddEvent
       (mkCreateEventData "Spring Fest 2025" "Three days of readings"
          "2025-03-10T09:00:00.000Z" "2025-03-12T18:00:00.000Z"
          (Num 2025) (Num 3) ∅);
     Toast "Success" "Created";
     SetFormData (mkCreateEventData "" "" "" "" (Num 2025) (Num 3) ∅);
     SetIsLoading false]
  ∧ final_state r
    = CreateEvent.mkState false
        (mkCreateEventData "" "" "" "" (Num 2025) (Num 3) ∅).
Proof. split; vm_compute; reflexivity. Qed.

Lemma past_start_date_blocks_submit_witness :
  let form :=
    mkCreateEventData "Spring Fest 2025" "Three days of readings"
      "2025-02-10T09:00" "2025-03-12T18:00" (Num 2025) (Num 3) ∅ in
  let w :=
    CreateEvent.mkWorld 1740823200000 1740823205000 1740823205000
      (λ _, Rejected) in
  let s := CreateEvent.mkState false form in
  let r := @CreateEvent.handleSubmit utc_dates w s in
  completion r = Normal ()
  ∧ trace r
    = [PreventDefault; Toast "Error" "Start Date cannot be in the past."]
  ∧ (∀ p, AddEvent p ∉ trace r)
  ∧ final_state r = s
  ∧ CreateEvent.formData (final_state r) = CreateEvent.formData s.
Proof.
  intros form w s r.
  apply (@past_start_date_blocks_submit utc_dates w s 1739178000000).
  - reflexivity.
  - vm_compute. reflexivity.
  - vm_compute. reflexivity.
Defined.

Lemma handleSubmit_reset_witness :
  let form :=
    mkCreateEventData "Spring Fest 2025" "Three days of readings"
      "2025-03-10T09:00" "2025-03-12T18:00" (Num 2025) (Num 3) ∅ in
  let res := mkApiResponse true None (Some "Created") None in
  let w :=
    CreateEvent.mkWorld 1740823200000 1740823205000 1740823205000
      (λ _, Resolved res) in
  let s := CreateEvent.mkState false form in
  let r := @CreateEvent.handleSubmit utc_dates w s in
  let d := CreateEvent.formData (final_state r) in
  CreateEvent.addEvent_calls (trace r)
  = [CreateEvent.with_dates form
       (@toISOString utc_dates 1741597200000)
       (@toISOString utc_dates 1741802400000)]
  ∧ name d = "" ∧ description d = "" ∧ startDate d = "" ∧ endDate d = ""
  ∧ year d = Num (@getFullYear utc_dates (CreateEvent.now_reset_year w))
  ∧ month d = Num (@getMonth utc_dates (CreateEvent.now_reset_month w) + 1)
  ∧ d = @CreateEvent.defaults utc_dates w.
Proof.
  intros form res w s r d.
  apply (proj1 (@handleSubmit_reset utc_dates w s)
           1741597200000%Z 1741802400000%Z res).
  - vm_compute. reflexivity.
  - vm_compute. reflexivity.
  - vm_compute. discriminate.
  - vm_compute. discriminate.
  - reflexivity.
  - reflexivity.
Defined.

(** ** More on the events management view *)

Section management_more.
Import EventsManagement.

Lemma string_app_assoc (a b c : string) : (a +:+ b) +:+ c = a +:+ b +:+ c.
Proof.
  induction a as [|x a IH]; [done|].
  change (String x ((a +:+ b) +:+ c) = String x (a +:+ b +:+ c)).
  by rewrite IH.
Qed.

Lemma substring_of_trans (a b c : string) :
  substring_of a b → substring_of b c → substring_of a c.
Proof.
  intros (p1 & q1 & ->) (p2 & q2 & ->).
  exists (p2 +:+ p1), (q1 +:+ q2). by rewrite !string_app_assoc.
Qed.

Lemma substring_of_lower (a b : string) :
  substring_of a b → substring_of (toLowerCase a) (toLowerCase b).
Proof.
  intros (p & q & ->). exists (toLowerCase p), (toLowerCase q).
  by rewrite !toLowerCase_app.
Qed.

Lemma includes_empty (x : string) : includes x "" = true.
Proof. apply includes_iff. by exists "", x. Qed.

(** A weaker test keeps at least what a stronger test keeps. *)
Lemma filter_sublist_impl {A} (f g : A → bool) (l : list A) :
  (∀ x, f x = true → g x = true) →
  sublist (List.filter f l) (List.filter g l).
Proof.
  intros Hfg. induction l as [|x l IH]; simpl; [constructor|].
  destruct (f x) eqn:Hf.
  - rewrite (Hfg _ Hf). by constructor.
  - destruct (g x); [by constructor | done].
Qed.

Lemma filter_all {A} (f : A → bool) (l : list A) :
  (∀ x, f x = true) → List.filter f l = l.
Proof.
  intros Hf. induction l as [|x l IH]; simpl; [done|].
  by rewrite Hf, IH.
Qed.

Lemma source_days_events s1 s2 :
  events s1 = events s2 → source_days s1 = source_days s2.
Proof. unfold source_days. by intros ->. Qed.

Lemma fold_total_shift (days : list EventDay) (n : nat) :
  fold_left (λ total day, total + times_length day) days n
  = n + getTotalTimes days.
Proof.
  unfold getTotalTimes. revert n.
  induction days as [|day days IH]; intros n; simpl; [lia|].
  rewrite (IH (n + times_length day)), (IH (times_length day)). lia.
Qed.

Lemma getTotalTimes_cons day days :
  getTotalTimes (day :: days) = times_length day + getTotalTimes days.
Proof. unfold getTotalTimes at 1. simpl. apply fold_total_shift. Qed.

(** The total of the sessions of two lists of days put end to end is the
    sum of their totals. *)
Theorem getTotalTimes_app (days1 days2 : list EventDay) :
  getTotalTimes (days1 ++ days2)%list
  = getTotalTimes days1 + getTotalTimes days2.
Proof.
  induction days1 as [|day days1 IH]; [done|].
  change ((day :: days1) ++ days2)%list with (day :: (days1 ++ days2)%list).
  rewrite !getTotalTimes_cons, IH. lia.
Qed.

(** The total is zero exactly when no day has a session: every day has
    either no session list or an empty one. *)
Theorem getTotalTimes_zero_iff (days : list EventDay) :
  getTotalTimes days = 0
  ↔ ∀ day, day ∈ days → day_times day = None ∨ day_times day = Some [].
Proof.
  induction days as [|day days IH].
  - split; [|done]. intros _ day Hin. by apply elem_of_nil in Hin.
  - rewrite getTotalTimes_cons. split.
    + intros Hz day' Hin. apply elem_of_cons in Hin as [-> | Hin].
      * unfold times_length in Hz.
        destruct (day_times day) as [[|x ts]|]; [by right | | by left].
        simpl in Hz. lia.
      * apply IH; [lia | done].
    + intros Hall.
      assert (Hd : times_length day = 0).
      { unfold times_length.
        destruct (Hall day (list_elem_of_here _ _)) as [-> | ->]; done. }
      assert (Hr : getTotalTimes days = 0).
      { apply IH. intros day' Hin. apply Hall. by apply list_elem_of_further. }
      lia.
Qed.

(** No day has more sessions than the total. *)
Theorem getTotalTimes_bounds_day (days : list EventDay) (day : EventDay) :
  day ∈ days → (times_length day ≤ getTotalTimes days)%nat.
Proof.
  induction days as [|day' days IH]; intros Hin.
  - by apply elem_of_nil in Hin.
  - rewrite getTotalTimes_cons. apply elem_of_cons in Hin as [-> | Hin].
    + lia.
    + specialize (IH Hin). lia.
Qed.

Lemma getTotalTimes_bounds_day_witness :
  let day := mkEventDay "d2" 2 "Readings" "Poetry"
               (Some [mkSession "s1" "Opening" "" "talk" "" "" "A. Speaker"]) in
  let days := [mkEventDay "d1" 1 "Arrival" "" None; day] in
  (times_length day ≤ getTotalTimes days)%nat.
Proof.
  intros day days. apply (getTotalTimes_bounds_day days day).
  apply list_elem_of_further, list_elem_of_here.
Defined.

Lemma filteredDays_empty_term (s : State) :
  searchTerm s = "" → filteredDays s = source_days s.
Proof.
  intros Ht. rewrite filteredDays_filter, Ht. apply filter_all.
  intros day. unfold day_matches. simpl. by rewrite includes_empty.
Qed.

(** With an empty search term every fetched day is listed, in the order
    of the fetched list. *)
Theorem empty_search_lists_all (s : State) :
  searchTerm s = "" → filteredDays s = source_days s.
Proof. apply filteredDays_empty_term. Qed.

Lemma empty_search_lists_all_witness :
  let s := mkState ""
             (Some (mkEventWithDays None
                      (Some [mkEventDay "d1" 1 "Arrival" "" None;
                             mkEventDay "d2" 2 "Readings" "Poetry" None])))
             false None in
  filteredDays s = source_days s.
Proof. intros s. apply (empty_search_lists_all s). reflexivity. Defined.



(** A fetch that stores nothing: the call throws, or its response lacks
    [success] or data. *)
Lemma fetchEvents_resume_not_stored w s :
  getAllEvents w = Rejected
  ∨ (∃ res, getAllEvents w = Resolved res
            ∧ (success res = false ∨ data res = None)) →
  ∃ x, fetchEvents_resume w s
       = (Normal (), mkState (searchTerm s) (events s) false (isDeleting s),
          [Toast "Error" x; SetIsLoading false]).
Proof.
  intros [Hw | (res & Hw & Hres)].
  - rewrite (fetchEvents_resume_rejected _ _ Hw). eauto.
  - rewrite (fetchEvents_resume_refused _ _ _ Hw Hres). eauto.
Qed.

(** On mount, a fetch that succeeds with data ends the loading state and
    lists every day of the fetched data, with no notification. *)
Theorem mount_lists_fetched_days
    (w : World) (res : ApiResponse EventWithDays) (d : EventWithDays) :
  getAllEvents w = Resolved res → success res = true → data res = Some d →
  let r := mount w initialState in
  isLoading (final_state r) = false
  ∧ filteredDays (final_state r) = default [] (days d)
  ∧ toasts (trace r) = [].
Proof.
  intros Hw Hs Hd r. subst r. unfold mount.
  rewrite fetchEvents_unfold, after_final_state, after_trace.
  rewrite (fetchEvents_resume_stores _ _ _ _ Hw Hs Hd).
  split_and!; try done.
  rewrite filteredDays_empty_term by done. done.
Qed.

Lemma mount_lists_fetched_days_witness :
  let d := mkEventWithDays None
             (Some [mkEventDay "d1" 1 "Arrival" "" None]) in
  let res := mkApiResponse true (Some d) None None in
  let w := mkWorld (λ _, true) (Resolved res) (λ _, Rejected) in
  let r := mount w initialState in
  isLoading (final_state r) = false
  ∧ filteredDays (final_state r) = default [] (days d)
  ∧ toasts (trace r) = [].
Proof.
  intros d res w r. apply (mount_lists_fetched_days w res d); reflexivity.
Defined.

(** On mount, a fetch that throws or whose response lacks [success] or
    data ends the loading state with an empty list and exactly one error
    notification. *)
Theorem mount_failure_lists_nothing (w : World) :
  getAllEvents w = Rejected
  ∨ (∃ res, getAllEvents w = Resolved res
            ∧ (success res = false ∨ data res = None)) →
  let r := mount w initialState in
  isLoading (final_state r) = false
  ∧ events (final_state r) = None
  ∧ filteredDays (final_state r) = []
  ∧ ∃ x, toasts (trace r) = [("Error", x)].
Proof.
  intros Hw r. subst r. unfold mount.
  rewrite fetchEvents_unfold, after_final_state, after_trace.
  destruct (fetchEvents_resume_not_stored w
              (mkState (searchTerm initialState) (events initialState) true
                 (isDeleting initialState)) Hw) as [x ->].
  split_and!; try done. by exists x.
Qed.

Lemma mount_failure_lists_nothing_witness :
  let w := mkWorld (λ _, true)
             (Resolved (mkApiResponse true None None None))
             (λ _, Rejected) in
  let r := mount w initialState in
  isLoading (final_state r) = false
  ∧ events (final_state r) = None
  ∧ filteredDays (final_state r) = []
  ∧ ∃ x, toasts (trace r) = [("Error", x)].
Proof.
  intros w r. apply (mount_failure_lists_nothing w).
  right. eexists. split; [reflexivity | right; reflexivity].
Defined.

(** A delete that succeeds while the fetch that follows it fails leaves
    the old events on display: the events and the listed days are those
    from before the delete, after a success notification followed by an
    error notification; both flags are cleared. *)
Theorem refetch_failure_keeps_stale_events
    (w : World) (e : string) (s : State) (res : ApiResponse unit) :
  confirm w confirm_text = true →
  deleteEvent w e = Resolved res → success res = true →
  getAllEvents w = Rejected
  ∨ (∃ res', getAllEvents w = Resolved res'
             ∧ (success res' = false ∨ data res' = None)) →
  let r := handleDeleteEvent w e s in
  events (final_state r) = events s
  ∧ filteredDays (final_state r) = filteredDays s
  ∧ isLoading (final_state r) = false
  ∧ isDeleting (final_state r) = None
  ∧ ∃ x, toasts (trace r)
         = [("Success",
             or_default (message res) "Event deleted successfully");
            ("Error", x)].
Proof.
  intros Hc Hd Hs Hw r. subst r.
  rewrite (handleDeleteEvent_succeeded _ _ _ _ Hc Hd Hs).
  rewrite after_final_state, after_trace.
  destruct (fetchEvents_resume_not_stored w
              (mkState (searchTerm s) (events s) true None) Hw) as [x ->].
  split_and!; try done. by exists x.
Qed.

Lemma refetch_failure_keeps_stale_events_witness :
  let res := mkApiResponse true None (Some "Deleted") None in
  let w := mkWorld (λ _, true) Rejected (λ _, Resolved res) in
  let s := mkState ""
             (Some (mkEventWithDays None
                      (Some [mkEventDay "d1" 1 "Arrival" "" None])))
             false None in
  let r := handleDeleteEvent w "ev1" s in
  events (final_state r) = events s
  ∧ filteredDays (final_state r) = filteredDays s
  ∧ isLoading (final_state r) = false
  ∧ isDeleting (final_state r) = None
  ∧ ∃ x, toasts (trace r)
         = [("Success",
             or_default (message res) "Event deleted successfully");
            ("Error", x)].
Proof.
  intros res w s r.
  apply (refetch_failure_keeps_stale_events w "ev1" s res);
    [reflexivity | reflexivity | reflexivity | left; reflexivity].
Defined.

Lemma fetchEvents_resume_frame w s :
  completion (fetchEvents_resume w s) = Normal ()
  ∧ searchTerm (final_state (fetchEvents_resume w s)) = searchTerm s
  ∧ isLoading (final_state (fetchEvents_resume w s)) = false.
Proof.
  destruct (getAllEvents_cases w)
    as [(res & d & Hw & Hs & Hd) | [(res & Hw & Hres) | Hw]].
  - by rewrite (fetchEvents_resume_stores _ _ _ _ Hw Hs Hd).
  - by rewrite (fetchEvents_resume_refused _ _ _ Hw Hres).
  - by rewrite (fetchEvents_resume_rejected _ _ Hw).
Qed.

Lemma after_completion {S A} t (m : Run S A) s :
  completion (after t m s) = completion (m s).
Proof. unfold after, completion. by destruct (m s) as [[c s'] t']. Qed.

(** Neither handler ever ends by throwing, whatever the services do, and
    neither changes the search term. *)
Theorem handlers_complete_and_keep_search (w : World) (e : string) (s : State) :
  completion (fetchEvents w s) = Normal ()
  ∧ searchTerm (final_state (fetchEvents w s)) = searchTerm s
  ∧ completion (handleDeleteEvent w e s) = Normal ()
  ∧ searchTerm (final_state (handleDeleteEvent w e s)) = searchTerm s.
Proof.
  split_and!.
  - rewrite fetchEvents_unfold, after_completion.
    match goal with
        | |- context [fetchEvents_resume w ?st] =>
            by destruct (fetchEvents_resume_frame w st) as (? & ? & ?)
        end.
  - rewrite fetchEvents_unfold, after_final_state.
    match goal with
        | |- context [fetchEvents_resume w ?st] =>
            by destruct (fetchEvents_resume_frame w st) as (? & ? & ?)
        end.
  - destruct (confirm w confirm_text) eqn:Hc.
    + destruct (deleteEvent_cases w e)
        as [[Hd | (res & Hd & Hs)] | (res & Hd & Hs)].
      * by rewrite (handleDeleteEvent_rejected _ _ _ Hc Hd).
      * by rewrite (handleDeleteEvent_failed _ _ _ _ Hc Hd Hs).
      * rewrite (handleDeleteEvent_succeeded _ _ _ _ Hc Hd Hs).
        rewrite after_completion. match goal with
        | |- context [fetchEvents_resume w ?st] =>
            by destruct (fetchEvents_resume_frame w st) as (? & ? & ?)
        end.
    + by rewrite (handleDeleteEvent_declined _ _ _ Hc).
  - destruct (confirm w confirm_text) eqn:Hc.
    + destruct (deleteEvent_cases w e)
        as [[Hd | (res & Hd & Hs)] | (res & Hd & Hs)].
      * by rewrite (handleDeleteEvent_rejected _ _ _ Hc Hd).
      * by rewrite (handleDeleteEvent_failed _ _ _ _ Hc Hd Hs).
      * rewrite (handleDeleteEvent_succeeded _ _ _ _ Hc Hd Hs).
        rewrite after_final_state. match goal with
        | |- context [fetchEvents_resume w ?st] =>
            by destruct (fetchEvents_resume_frame w st) as (? & ? & ?)
        end.
    + by rewrite (handleDeleteEvent_declined _ _ _ Hc).
Qed.

(** A delete call is only ever issued for the event the handler was asked
    to delete, after the user confirmed, and at most once. *)
Lemma handleDeleteEvent_calls w e s :
  omap (λ a, match a with DeleteEvent id => Some id | _ => None end)
    (trace (handleDeleteEvent w e s))
  = if confirm w confirm_text then [e] else [].
Proof.
  destruct (confirm w confirm_text) eqn:Hc.
  - destruct (deleteEvent_cases w e)
      as [[Hd | (res & Hd & Hs)] | (res & Hd & Hs)].
    + by rewrite (handleDeleteEvent_rejected _ _ _ Hc Hd).
    + by rewrite (handleDeleteEvent_failed _ _ _ _ Hc Hd Hs).
    + rewrite (handleDeleteEvent_succeeded _ _ _ _ Hc Hd Hs).
      rewrite after_trace, omap_app. simpl.
      destruct (getAllEvents_cases w)
        as [(res' & d & Hw & Hs' & Hd') | [(res' & Hw & Hres) | Hw]].
      * by rewrite (fetchEvents_resume_stores _ _ _ _ Hw Hs' Hd').
      * by rewrite (fetchEvents_resume_refused _ _ _ Hw Hres).
      * by rewrite (fetchEvents_resume_rejected _ _ Hw).
  - by rewrite (handleDeleteEvent_declined _ _ _ Hc).
Qed.

(** The delete service can be reached from the menu only by an
    administrator, while the view is not loading and shows an event, and
    then only for that event and only after the user confirmed. *)
Theorem delete_needs_admin_and_confirmation
    (isAdmin : bool) (w : World) (s : State) (h : Run State unit)
    (id : string) :
  deleteItemOnClick isAdmin w s = Some h →
  DeleteEvent id ∈ trace (h s) →
  isAdmin = true
  ∧ isLoading s = false
  ∧ confirm w confirm_text = true
  ∧ ∃ ev e, events s = Some ev ∧ event ev = Some e ∧ id = event_id e.
Proof.
  unfold deleteItemOnClick. intros Hh Hid.
  destruct (isLoading s); [discriminate Hh|].
  destruct (events s) as [ev|]; [|discriminate Hh].
  destruct (event ev) as [e|] eqn:He; [|discriminate Hh].
  destruct isAdmin; [|discriminate Hh]. injection Hh as <-.
  assert (Hin : id ∈ omap (λ a, match a with
                                | DeleteEvent id => Some id
                                | _ => None
                                end)
                       (trace (handleDeleteEvent w (event_id e) s))).
  { apply list_elem_of_omap. by exists (DeleteEvent id). }
  rewrite handleDeleteEvent_calls in Hin.
  destruct (confirm w confirm_text); [|by apply elem_of_nil in Hin].
  apply list_elem_of_singleton in Hin as ->.
  split_and!; try done. by exists ev, e.
Qed.

Lemma delete_needs_admin_and_confirmation_witness :
  let e := mkEvent "ev1" "Spring Fest" "" "" "" 3 in
  let s := mkState "" (Some (mkEventWithDays (Some e) None)) false None in
  let w := mkWorld (λ _, true) Rejected (λ _, Rejected) in
  true = true
  ∧ isLoading s = false
  ∧ confirm w confirm_text = true
  ∧ ∃ ev e', events s = Some ev ∧ event ev = Some e' ∧ "ev1" = event_id e'.
Proof.
  intros e s w.
  apply (delete_needs_admin_and_confirmation true w s
           (handleDeleteEvent w "ev1") "ev1").
  - reflexivity.
  - vm_compute. do 2 apply list_elem_of_further. apply list_elem_of_here.
Defined.

(** Fetching again from the state a fetch left behind, with the same
    answer of the service, changes nothing more. *)
Theorem fetchEvents_again_same_state (w : World) (s : State) :
  final_state (fetchEvents w (final_state (fetchEvents w s)))
  = final_state (fetchEvents w s).
Proof.
  rewrite !fetchEvents_unfold, !after_final_state.
  destruct (getAllEvents_cases w)
    as [(res & d & Hw & Hs & Hd) | [(res & Hw & Hres) | Hw]].
  - by rewrite !(fetchEvents_resume_stores _ _ _ _ Hw Hs Hd).
  - by rewrite !(fetchEvents_resume_refused _ _ _ Hw Hres).
  - by rewrite !(fetchEvents_resume_rejected _ _ Hw).
Qed.

End management_more.

(** ** More on the create-event view *)

Section creation_more.
Import CreateEvent.
Context `{JsDate}.

(** A date that passes a guard, when the empty string is no date: it is
    invalid, or not before now. *)
Lemma guard_false_iff x now :
  Date_parse "" = None →
  truthy x && date_lt (Date_parse x) now = false
  ↔ date_lt (Date_parse x) now = false.
Proof.
  intros He. destruct x as [|c x]; simpl; [|done].
  rewrite He. done.
Qed.

Lemma guard_false x now :
  date_lt (Date_parse x) now = false →
  truthy x && date_lt (Date_parse x) now = false.
Proof. intros ->. apply andb_false_r. Qed.

(** When the start date is not a date before now but the end date is,
    submitting shows the end-date error and returns: no service call, no
    change of state. *)
Theorem past_end_date_blocks_submit (w : World) (s : State) (t : Z) :
  Date_parse "" = None →
  date_lt (Date_parse (startDate (formData s))) (now_submit w) = false →
  Date_parse (endDate (formData s)) = Some t →
  (t < now_submit w)%Z →
  let r := handleSubmit w s in
  trace r
  = [PreventDefault; Toast "Error" "End Date cannot be in the past."]
  ∧ addEvent_calls (trace r) = []
  ∧ final_state r = s.
Proof.
  intros He Hs Hd Hlt r. subst r.
  rewrite handleSubmit_end_in_past; [done | by apply guard_false |].
  rewrite (parsed_is_truthy _ _ He Hd), Hd. simpl. by apply Z.ltb_lt.
Qed.

(** A date field that is empty or does not parse is not caught by the
    guards: when neither date is before now and one of them is invalid,
    the submission raises the loading flag, fails before the service call
    with the generic error notification, lowers the flag and keeps the
    form data. *)
Theorem invalid_date_fails_before_call (w : World) (s : State) :
  date_lt (Date_parse (startDate (formData s))) (now_submit w) = false →
  date_lt (Date_parse (endDate (formData s))) (now_submit w) = false →
  Date_parse (startDate (formData s)) = None
  ∨ Date_parse (endDate (formData s)) = None →
  let r := handleSubmit w s in
  trace r
  = [PreventDefault; SetIsLoading true;
     Toast "Error" "An unexpected error occurred"; SetIsLoading false]
  ∧ addEvent_calls (trace r) = []
  ∧ formData (final_state r) = formData s
  ∧ isLoading (final_state r) = false.
Proof.
  intros Hs He Hd r. subst r.
  by rewrite handleSubmit_invalid_date by (done || by apply guard_false).
Qed.

(** The creation service is called exactly when both dates parse and
    neither is before now, and then once, with the form data in which the
    two dates are replaced by their ISO texts; nothing compares the end
    date with the start date. *)
Theorem addEvent_called_iff_dates_valid (w : World) (s : State) :
  Date_parse "" = None →
  let r := handleSubmit w s in
  (∀ p, p ∈ addEvent_calls (trace r)
        ↔ ∃ t1 t2,
            Date_parse (startDate (formData s)) = Some t1
            ∧ Date_parse (endDate (formData s)) = Some t2
            ∧ (now_submit w ≤ t1)%Z ∧ (now_submit w ≤ t2)%Z
            ∧ p = with_dates (formData s) (toISOString t1) (toISOString t2))
  ∧ (length (addEvent_calls (trace r)) ≤ 1)%nat.
Proof.
  intros He r. subst r.
  destruct (truthy (startDate (formData s))
            && date_lt (Date_parse (startDate (formData s))) (now_submit w))
    eqn:Hg1.
  { rewrite (handleSubmit_start_in_past _ _ Hg1). split; [|simpl; lia].
    intros p. split; [intros Hp; by apply elem_of_nil in Hp|].
    intros (t1 & t2 & Hd1 & _ & Hle & _).
    apply andb_true_iff in Hg1 as [_ Hg1]. rewrite Hd1 in Hg1.
    apply Z.ltb_lt in Hg1. lia. }
  destruct (truthy (endDate (formData s))
            && date_lt (Date_parse (endDate (formData s))) (now_submit w))
    eqn:Hg2.
  { rewrite (handleSubmit_end_in_past _ _ Hg1 Hg2). split; [|simpl; lia].
    intros p. split; [intros Hp; by apply elem_of_nil in Hp|].
    intros (t1 & t2 & _ & Hd2 & _ & Hle & _).
    apply andb_true_iff in Hg2 as [_ Hg2]. rewrite Hd2 in Hg2.
    apply Z.ltb_lt in Hg2. lia. }
  assert (Hc1 : Date_parse (startDate (formData s)) = None
                ∨ ∃ t1, Date_parse (startDate (formData s)) = Some t1)
    by (destruct (Date_parse (startDate (formData s))); eauto).
  assert (Hc2 : Date_parse (endDate (formData s)) = None
                ∨ ∃ t2, Date_parse (endDate (formData s)) = Some t2)
    by (destruct (Date_parse (endDate (formData s))); eauto).
  destruct Hc1 as [Hd1 | [t1 Hd1]].
  { rewrite (handleSubmit_invalid_date _ _ Hg1 Hg2 (or_introl Hd1)).
    split; [|simpl; lia].
    intros p. split; [intros Hp; by apply elem_of_nil in Hp|].
    intros (t1 & t2 & Hd1' & _). congruence. }
  destruct Hc2 as [Hd2 | [t2 Hd2]].
  { rewrite (handleSubmit_invalid_date _ _ Hg1 Hg2 (or_intror Hd2)).
    split; [|simpl; lia].
    intros p. split; [intros Hp; by apply elem_of_nil in Hp|].
    intros (t1' & t2 & _ & Hd2' & _). congruence. }
  rewrite (handleSubmit_called _ _ _ _ Hg1 Hg2 Hd1 Hd2).
  apply (guard_false_iff _ _ He) in Hg1, Hg2.
  rewrite Hd1 in Hg1. rewrite Hd2 in Hg2. simpl in Hg1, Hg2.
  apply Z.ltb_ge in Hg1, Hg2.
  assert (Hspec :
    ∀ p, p ∈ [with_dates (formData s) (toISOString t1) (toISOString t2)]
         ↔ ∃ t1' t2',
             Date_parse (startDate (formData s)) = Some t1'
             ∧ Date_parse (endDate (formData s)) = Some t2'
             ∧ (now_submit w ≤ t1')%Z ∧ (now_submit w ≤ t2')%Z
             ∧ p = with_dates (formData s) (toISOString t1')
                     (toISOString t2')).
  { intros p. rewrite list_elem_of_singleton. split.
    - intros ->. by exists t1, t2.
    - intros (t1' & t2' & Hd1' & Hd2' & _ & _ & ->). congruence. }
  destruct (addEvent w _) as [res|]; [destruct (success res)|];
    (split; [exact Hspec | simpl; lia]).
Qed.

(** Every submission ends normally and shows exactly one notification;
    it either returns at a guard with the state untouched, or raises the
    loading flag and lowers it again as its last action. *)
Theorem handleSubmit_one_notification (w : World) (s : State) :
  let r := handleSubmit w s in
  completion r = Normal ()
  ∧ length (toasts (trace r)) = 1
  ∧ ((final_state r = s ∧ ∀ b, SetIsLoading b ∉ trace r)
     ∨ (isLoading (final_state r) = false
        ∧ trace r !! 1 = Some (SetIsLoading true)
        ∧ last (trace r) = Some (SetIsLoading false))).
Proof.
  intros r. subst r.
  destruct (handleSubmit_cases w s)
    as [[x ->] | [[x ->] | [(p & x & Hf & ->) | (p & x & res & Ha & Hs & ->)]]].
  - split_and!; try done. left. split; [done|]. intros b. not_in_trace.
  - split_and!; try done. by right.
  - split_and!; try done. by right.
  - split_and!; try done. by right.
Qed.

Lemma assign_frame (d : CreateEventData) (key value key' : string) :
  key' ≠ key →
  string_field (assign d key value) key' = string_field d key'
  ∧ number_field (assign d key value) key' = number_field d key'.
Proof.
  intros Hne. unfold assign, string_field, number_field.
  repeat case_decide; subst; try done; simpl.
  by rewrite lookup_insert_ne.
Qed.

(** A change of one input touches that field only: every other field,
    text or number, declared or not, reads as before, and the loading
    flag is kept. *)
Theorem handleChange_frame (key value key' : string) (s : State) :
  key' ≠ key →
  let s' := final_state (handleChange key value s) in
  string_field (formData s') key' = string_field (formData s) key'
  ∧ number_field (formData s') key' = number_field (formData s) key'
  ∧ isLoading s' = isLoading s.
Proof.
  intros Hne s'. subst s'.
  destruct (assign_frame (formData s) key value key' Hne) as [Hs Hn].
  done.
Qed.

(** Two changes of the same input in a row leave the form as the second
    one alone does. *)
Theorem handleChange_last_wins (key v1 v2 : string) (s : State) :
  final_state (handleChange key v2 (final_state (handleChange key v1 s)))
  = final_state (handleChange key v2 s).
Proof.
  unfold handleChange, bind, get, setFormData, update, final_state.
  simpl. f_equal. unfold assign.
  repeat case_decide; try done; simpl. f_equal. apply insert_insert_eq.
Qed.

(** Changes of two different inputs can be made in either order. *)
Theorem handleChange_commute (k1 v1 k2 v2 : string) (s : State) :
  k1 ≠ k2 →
  final_state (handleChange k2 v2 (final_state (handleChange k1 v1 s)))
  = final_state (handleChange k1 v1 (final_state (handleChange k2 v2 s))).
Proof.
  intros Hne.
  unfold handleChange, bind, get, setFormData, update, final_state.
  simpl. f_equal. unfold assign.
  repeat case_decide; subst; try done; simpl. f_equal.
  by apply insert_insert_ne.
Qed.

Lemma or_zero_not_NaN n : or_zero n ≠ NaN.
Proof. destruct n as [|z]; simpl; [done|]. by destruct (z =? 0)%Z. Qed.

Lemma handleChange_numbers_ok key value s :
  numbers_ok s → numbers_ok (final_state (handleChange key value s)).
Proof.
  intros [Hy Hm]. unfold numbers_ok, handleChange, bind, get, setFormData,
    update, final_state. simpl. unfold assign.
  repeat case_decide; simpl; split; try done; apply or_zero_not_NaN.
Qed.

Lemma handleSubmit_numbers_ok w s :
  numbers_ok s → numbers_ok (final_state (handleSubmit w s)).
Proof.
  intros Hok.
  destruct (handleSubmit_cases w s)
    as [[x ->] | [[x ->] | [(p & x & Hf & ->) | (p & x & res & Ha & Hs & ->)]]];
    done.
Qed.

Lemma handleSubmit_not_loading w s :
  isLoading s = false → isLoading (final_state (handleSubmit w s)) = false.
Proof.
  intros Hl.
  destruct (handleSubmit_cases w s)
    as [[x ->] | [[x ->] | [(p & x & Hf & ->) | (p & x & res & Ha & Hs & ->)]]];
    done.
Qed.

(** From the initial form, whatever the user types and submits and
    whatever the service answers, [year] and [month] never hold NaN, and
    the form is not left loading once a handler is done. *)
Theorem form_numbers_never_NaN
    (now_year now_month : Z) (evs : list FormEvent) :
  let s := run_events evs (initialState now_year now_month) in
  year (formData s) ≠ NaN
  ∧ month (formData s) ≠ NaN
  ∧ isLoading s = false.
Proof.
  intros s. subst s.
  assert (Hinv : ∀ s0, numbers_ok s0 ∧ isLoading s0 = false →
                       numbers_ok (run_events evs s0)
                       ∧ isLoading (run_events evs s0) = false).
  { unfold run_events. induction evs as [|ev evs IH]; intros s0 Hs0;
      [done|]. simpl. apply IH. destruct Hs0 as [Hok Hl].
    destruct ev as [key value|w]; simpl.
    - split; [by apply handleChange_numbers_ok | done].
    - split; [by apply handleSubmit_numbers_ok
             | by apply handleSubmit_not_loading]. }
  destruct (Hinv (initialState now_year now_month)) as [[Hy Hm] Hl]; done.
Qed.

Lemma or_default_truthy a b : truthy b = true → truthy (or_default a b) = true.
Proof.
  intros Hb. unfold or_default. destruct a as [x|]; [|done].
  by destruct (truthy x) eqn:Hx.
Qed.

Lemma toasts_app t1 t2 : toasts (t1 ++ t2)%list = (toasts t1 ++ toasts t2)%list.
Proof. unfold toasts. apply omap_app. Qed.

Lemma fetchEvents_resume_toasts_truthy w s x :
  x ∈ toasts (trace (EventsManagement.fetchEvents_resume w s)) →
  truthy x.2 = true.
Proof.
  destruct (getAllEvents_cases w)
    as [(res & d & Hw & Hs & Hd) | [(res & Hw & Hres) | Hw]].
  - rewrite (fetchEvents_resume_stores _ _ _ _ Hw Hs Hd). intros Hx.
    by apply elem_of_nil in Hx.
  - rewrite (fetchEvents_resume_refused _ _ _ Hw Hres). intros Hx.
    apply list_elem_of_singleton in Hx as ->. by apply or_default_truthy.
  - rewrite (fetchEvents_resume_rejected _ _ Hw). intros Hx.
    by apply list_elem_of_singleton in Hx as ->.
Qed.

(** No handler ever shows a notification with an empty text: a missing
    or empty [message] or [error] of a response is replaced by the
    handler's own text. *)
Theorem notifications_have_text
    (wm : EventsManagement.World) (sm : EventsManagement.State)
    (e : string) (w : World) (s : State) (x : string * string) :
  x ∈ toasts (trace (EventsManagement.fetchEvents wm sm))
  ∨ x ∈ toasts (trace (EventsManagement.handleDeleteEvent wm e sm))
  ∨ x ∈ toasts (trace (handleSubmit w s)) →
  x.2 ≠ "".
Proof.
  intros Hx. cut (truthy x.2 = true); [by destruct x.2|].
  destruct Hx as [Hx | [Hx | Hx]].
  - rewrite fetchEvents_unfold, after_trace, toasts_app in Hx. simpl in Hx.
    by apply fetchEvents_resume_toasts_truthy in Hx.
  - destruct (EventsManagement.confirm wm EventsManagement.confirm_text) eqn:Hc.
    + destruct (deleteEvent_cases wm e)
        as [[Hd | (res & Hd & Hs)] | (res & Hd & Hs)].
      * rewrite (handleDeleteEvent_rejected _ _ _ Hc Hd) in Hx.
        by apply list_elem_of_singleton in Hx as ->.
      * rewrite (handleDeleteEvent_failed _ _ _ _ Hc Hd Hs) in Hx.
        apply list_elem_of_singleton in Hx as ->. by apply or_default_truthy.
      * rewrite (handleDeleteEvent_succeeded _ _ _ _ Hc Hd Hs) in Hx.
        rewrite after_trace, toasts_app in Hx. simpl in Hx.
        apply elem_of_cons in Hx as [-> | Hx];
          [by apply or_default_truthy|].
        by apply fetchEvents_resume_toasts_truthy in Hx.
    + rewrite (handleDeleteEvent_declined _ _ _ Hc) in Hx.
      by apply elem_of_nil in Hx.
  - destruct (sumbool_of_bool
                (truthy (startDate (formData s))
                 && date_lt (Date_parse (startDate (formData s)))
                      (now_submit w))) as [Hg1 | Hg1].
    { rewrite (handleSubmit_start_in_past _ _ Hg1) in Hx.
      by apply list_elem_of_singleton in Hx as ->. }
    destruct (sumbool_of_bool
                (truthy (endDate (formData s))
                 && date_lt (Date_parse (endDate (formData s)))
                      (now_submit w))) as [Hg2 | Hg2].
    { rewrite (handleSubmit_end_in_past _ _ Hg1 Hg2) in Hx.
      by apply list_elem_of_singleton in Hx as ->. }
    assert (Hc1 : Date_parse (startDate (formData s)) = None
                  ∨ ∃ t1, Date_parse (startDate (formData s)) = Some t1)
      by (destruct (Date_parse (startDate (formData s))); eauto).
    assert (Hc2 : Date_parse (endDate (formData s)) = None
                  ∨ ∃ t2, Date_parse (endDate (formData s)) = Some t2)
      by (destruct (Date_parse (endDate (formData s))); eauto).
    destruct Hc1 as [Hp1 | [t1 Hp1]].
    { rewrite (handleSubmit_invalid_date _ _ Hg1 Hg2 (or_introl Hp1)) in Hx.
      by apply list_elem_of_singleton in Hx as ->. }
    destruct Hc2 as [Hp2 | [t2 Hp2]].
    { rewrite (handleSubmit_invalid_date _ _ Hg1 Hg2 (or_intror Hp2)) in Hx.
      by apply list_elem_of_singleton in Hx as ->. }
    rewrite (handleSubmit_called _ _ _ _ Hg1 Hg2 Hp1 Hp2) in Hx.
    destruct (addEvent w _) as [res|]; [destruct (success res)|];
      apply list_elem_of_singleton in Hx as ->;
      by (done || apply or_default_truthy).
Qed.

End creation_more.

Lemma past_end_date_blocks_submit_witness :
  let form :=
    mkCreateEventData "Spring Fest 2025" "" "2025-03-10T09:00"
      "2025-02-12T18:00" (Num 2025) (Num 3) ∅ in
  let w := CreateEvent.mkWorld 1740823200000 1740823205000 1740823205000
             (λ _, Rejected) in
  let s := CreateEvent.mkState false form in
  let r := @CreateEvent.handleSubmit utc_dates w s in
  trace r
  = [PreventDefault; Toast "Error" "End Date cannot be in the past."]
  ∧ CreateEvent.addEvent_calls (trace r) = []
  ∧ final_state r = s.
Proof.
  intros form w s r.
  apply (@past_end_date_blocks_submit utc_dates w s 1739383200000).
  - reflexivity.
  - vm_compute. reflexivity.
  - vm_compute. reflexivity.
  - vm_compute. reflexivity.
Defined.

Lemma invalid_date_fails_before_call_witness :
  let form :=
    mkCreateEventData "Spring Fest 2025" "" "" "2025-03-12T18:00"
      (Num 2025) (Num 3) ∅ in
  let w := CreateEvent.mkWorld 1740823200000 1740823205000 1740823205000
             (λ _, Rejected) in
  let s := CreateEvent.mkState false form in
  let r := @CreateEvent.handleSubmit utc_dates w s in
  trace r
  = [PreventDefault; SetIsLoading true;
     Toast "Error" "An unexpected error occurred"; SetIsLoading false]
  ∧ CreateEvent.addEvent_calls (trace r) = []
  ∧ CreateEvent.formData (final_state r) = CreateEvent.formData s
  ∧ CreateEvent.isLoading (final_state r) = false.
Proof.
  intros form w s r.
  apply (@invalid_date_fails_before_call utc_dates w s).
  - vm_compute. reflexivity.
  - vm_compute. reflexivity.
  - left. vm_compute. reflexivity.
Defined.

Lemma addEvent_called_iff_dates_valid_witness :
  let form :=
    mkCreateEventData "Spring Fest 2025" "" "2025-03-12T18:00"
      "2025-03-10T09:00" (Num 2025) (Num 3) ∅ in
  let w := CreateEvent.mkWorld 1740823200000 1740823205000 1740823205000
             (λ _, Rejected) in
  let s := CreateEvent.mkState false form in
  let r := @CreateEvent.handleSubmit utc_dates w s in
  (∀ p, p ∈ CreateEvent.addEvent_calls (trace r)
        ↔ ∃ t1 t2,
            @Date_parse utc_dates (startDate (CreateEvent.formData s)) = Some t1
            ∧ @Date_parse utc_dates (endDate (CreateEvent.formData s)) = Some t2
            ∧ (CreateEvent.now_submit w ≤ t1)%Z ∧ (CreateEvent.now_submit w ≤ t2)%Z
            ∧ p = CreateEvent.with_dates (CreateEvent.formData s) (@toISOString utc_dates t1)
                    (@toISOString utc_dates t2))
  ∧ (length (CreateEvent.addEvent_calls (trace r)) ≤ 1)%nat.
Proof.
  intros form w s r.
  apply (@addEvent_called_iff_dates_valid utc_dates w s). reflexivity.
Defined.

Lemma handleChange_frame_witness :
  let s := CreateEvent.mkState false
             (mkCreateEventData "Fest" "" "" "" (Num 2025) (Num 3) ∅) in
  let s' := final_state (CreateEvent.handleChange "year" "2026" s) in
  CreateEvent.string_field (CreateEvent.formData s') "name"
  = CreateEvent.string_field (CreateEvent.formData s) "name"
  ∧ CreateEvent.number_field (CreateEvent.formData s') "name"
    = CreateEvent.number_field (CreateEvent.formData s) "name"
  ∧ CreateEvent.isLoading s' = CreateEvent.isLoading s.
Proof.
  intros s s'. apply (handleChange_frame "year" "2026" "name" s).
  discriminate.
Defined.

Lemma handleChange_commute_witness :
  let s := CreateEvent.mkState false
             (mkCreateEventData "" "" "" "" (Num 2025) (Num 3) ∅) in
  final_state
    (CreateEvent.handleChange "name" "Fest"
       (final_state (CreateEvent.handleChange "year" "2026" s)))
  = final_state
      (CreateEvent.handleChange "year" "2026"
         (final_state (CreateEvent.handleChange "name" "Fest" s))).
Proof.
  intros s. apply (handleChange_commute "year" "2026" "name" "Fest" s).
  discriminate.
Defined.

Lemma notifications_have_text_witness :
  let wm := EventsManagement.mkWorld (λ _, true)
              (Resolved (mkApiResponse false None None (Some "")))
              (λ _, Rejected) in
  ("Error", "Failed to fetch events").2 ≠ "".
Proof.
  intros wm.
  apply (@notifications_have_text utc_dates wm EventsManagement.initialState
           "ev1"
           (CreateEvent.mkWorld 0 0 0 (λ _, Rejected))
           (@CreateEvent.initialState utc_dates 0 0)
           ("Error", "Failed to fetch events")).
  left. vm_compute. apply list_elem_of_here.
Defined.

(** ** Filtering on any text *)

Section unicode.
Import EventsManagement.
Context `{UnicodeData}.

Lemma is_ascii_char_lt (c : ascii) :
  is_ascii_char c = true ↔ (N_of_ascii c < 128)%N.
Proof. unfold is_ascii_char. apply N.ltb_lt. Qed.

Lemma is_ascii_cons (c : ascii) (s : string) :
  is_ascii (String c s) = true ↔ is_ascii_char c = true ∧ is_ascii s = true.
Proof. simpl. apply andb_true_iff. Qed.

Lemma is_ascii_app (a b : string) :
  is_ascii (a +:+ b) = true ↔ is_ascii a = true ∧ is_ascii b = true.
Proof.
  induction a as [|c a IH].
  - change ("" +:+ b) with b. simpl. tauto.
  - change (String c a +:+ b) with (String c (a +:+ b)).
    rewrite !is_ascii_cons, IH. tauto.
Qed.

Lemma is_ascii_substring (t s : string) :
  substring_of t s → is_ascii s = true → is_ascii t = true.
Proof.
  intros (pre & post & ->) Hs.
  apply is_ascii_app in Hs as [_ Hs]. by apply is_ascii_app in Hs as [Hs _].
Qed.

Lemma utf8_decode_ascii_cons (c : ascii) (s : string) :
  is_ascii_char c = true →
  utf8_decode (String c s) = N_of_ascii c :: utf8_decode s.
Proof. unfold is_ascii_char. intros Hc. cbn [utf8_decode]. by rewrite Hc. Qed.

Lemma lower_char_ascii (c : ascii) :
  is_ascii_char c = true → is_ascii_char (lower_char c) = true.
Proof.
  intros Hc. destruct (is_upper c) eqn:Hu.
  - apply is_ascii_char_lt.
    pose proof (nat_of_lower_upper c Hu) as Hn.
    apply is_upper_iff in Hu. unfold nat_of_ascii in *. lia.
  - by rewrite lower_char_other.
Qed.

(** On ASCII text the lower-casing of any text is the lower-casing of
    the letters [A]-[Z]. *)
Lemma toLowerCase_unicode_ascii (s : string) :
  agrees_on_ascii → is_ascii s = true →
  toLowerCase_unicode s = toLowerCase s.
Proof.
  intros Hag. unfold toLowerCase_unicode. generalize (@nil N) as before.
  induction s as [|c s IH]; intros before Hs; [done|].
  apply is_ascii_cons in Hs as [Hc Hs].
  rewrite (utf8_decode_ascii_cons _ _ Hc). cbn [lower_code_points].
  pose proof (proj1 (is_ascii_char_lt c) Hc) as Hlt.
  unfold lower_mapping.
  replace (N_of_ascii c =? 304)%N with false
    by (symmetry; apply N.eqb_neq; lia).
  replace (N_of_ascii c =? 931)%N with false
    by (symmetry; apply N.eqb_neq; lia).
  cbn [andb app utf8_encode]. rewrite (Hag _ Hlt), ascii_N_embedding.
  unfold utf8_encode_one.
  rewrite (proj2 (N.ltb_lt _ _)
             (proj1 (is_ascii_char_lt _) (lower_char_ascii _ Hc))).
  unfold byte. rewrite ascii_N_embedding. cbn [toLowerCase].
  by rewrite IH.
Qed.

Lemma filteredDays_unicode_filter (s : State) :
  filteredDays_unicode s
  = List.filter (day_matches_unicode (searchTerm s)) (source_days s).
Proof.
  unfold filteredDays_unicode, source_days.
  destruct (events s) as [[ev [ds|]]|]; done.
Qed.

Lemma filter_ext_elem {A} (f g : A → bool) (l : list A) :
  (∀ x, x ∈ l → f x = g x) → List.filter f l = List.filter g l.
Proof.
  intros Hfg. induction l as [|x l IH]; simpl; [done|].
  rewrite (Hfg x (list_elem_of_here _ _)), IH; [done|].
  intros y Hy. apply Hfg. by apply list_elem_of_further.
Qed.

(** On ASCII text the two filters list the same days. *)
Lemma filteredDays_unicode_ascii (s : State) :
  agrees_on_ascii → ascii_state s → filteredDays_unicode s = filteredDays s.
Proof.
  intros Hag [Ht Hdays].
  rewrite filteredDays_unicode_filter, filteredDays_filter.
  apply filter_ext_elem. intros day Hday.
  destruct (Hdays day Hday) as [Hn Hd].
  unfold day_matches_unicode, day_matches.
  by rewrite !toLowerCase_unicode_ascii.
Qed.

Lemma filter_elem_of {A} (f : A → bool) (l : list A) (x : A) :
  x ∈ List.filter f l ↔ x ∈ l ∧ f x = true.
Proof. rewrite !list_elem_of_In. apply filter_In. Qed.

Lemma filter_sublist {A} (f : A → bool) (l : list A) :
  sublist (List.filter f l) l.
Proof.
  induction l as [|x l IH]; simpl; [constructor|].
  destruct (f x); by constructor.
Qed.

(** C5 (amended). For every events value and search term,
    [filteredDays] is a subsequence of the fetched days, never longer
    than their list, and empty when there is no day list or an empty one.
    When the search term and the names and descriptions of the days are
    ASCII text, it is exactly the subsequence of the days whose name or
    description contains the search term, case ignored: the selection of
    those days, in their order, with a day in it if and only if it is a
    fetched day that matches. *)
Theorem filteredDays_exact_on_ascii (s : State) :
  let ds := source_days s in
  let P := day_selected (searchTerm s) in
  sublist (filteredDays_unicode s) ds
  ∧ (length (filteredDays_unicode s) ≤ length ds)%nat
  ∧ (events s = None
     ∨ (∃ ev, events s = Some ev ∧ (days ev = None ∨ days ev = Some [])) →
     filteredDays_unicode s = [])
  ∧ (agrees_on_ascii → ascii_state s →
     selects P ds (filteredDays_unicode s)
     ∧ (∀ l, selects P ds l → l = filteredDays_unicode s)
     ∧ (∀ day, day ∈ filteredDays_unicode s ↔ day ∈ ds ∧ P day)).
Proof.
  intros ds P. subst ds P. split_and!.
  - rewrite filteredDays_unicode_filter. apply filter_sublist.
  - apply sublist_length. rewrite filteredDays_unicode_filter.
    apply filter_sublist.
  - unfold filteredDays_unicode.
    intros [-> | (ev & -> & [-> | ->])]; done.
  - intros Hag Hs. rewrite (filteredDays_unicode_ascii s Hag Hs).
    pose proof (filteredDays_selects s) as Hsel. split_and!.
    + done.
    + intros l Hl. by apply (selects_unique _ _ _ _ Hl).
    + intros day. by apply selects_elem_of.
Qed.

(** C6 (amended). A fetched day whose name is ASCII text and contains the
    search term as a substring is part of [filteredDays]. *)
Theorem filteredDays_includes_ascii_name_match (s : State) (day : EventDay) :
  agrees_on_ascii →
  day ∈ source_days s →
  is_ascii (day_name day) = true →
  substring_of (searchTerm s) (day_name day) →
  day ∈ filteredDays_unicode s.
Proof.
  intros Hag Hin Hname Hsub.
  rewrite filteredDays_unicode_filter. apply filter_elem_of.
  split; [done|]. unfold day_matches_unicode. apply orb_true_iff. left.
  rewrite !toLowerCase_unicode_ascii
    by (done || by apply (is_ascii_substring _ _ Hsub)).
  apply includes_lower_iff. by apply substring_of_nocase.
Qed.

(** Refining an ASCII search narrows the list, whatever the text of the
    days: when the term of one state is a substring of the ASCII term of
    another state over the same events, the days listed for the longer
    term are a subsequence of the days listed for the shorter one. *)
Theorem longer_ascii_search_narrows (s1 s2 : State) :
  agrees_on_ascii →
  events s1 = events s2 →
  is_ascii (searchTerm s2) = true →
  substring_of (searchTerm s1) (searchTerm s2) →
  sublist (filteredDays_unicode s2) (filteredDays_unicode s1).
Proof.
  intros Hag Hev Hascii Hsub.
  rewrite !filteredDays_unicode_filter, (source_days_events _ _ Hev).
  apply filter_sublist_impl. intros day. unfold day_matches_unicode.
  rewrite (toLowerCase_unicode_ascii (searchTerm s2)) by done.
  rewrite (toLowerCase_unicode_ascii (searchTerm s1))
    by (done || by apply (is_ascii_substring _ _ Hsub)).
  rewrite !orb_true_iff, !includes_iff.
  apply substring_of_lower in Hsub.
  intros [Hm | Hm]; [left | right];
    by apply (substring_of_trans _ _ _ Hsub).
Qed.

End unicode.

(** Truth of a property of the first [n] numbers, by enumeration. *)
Lemma forallb_below (P : N → bool) (n : nat) :
  forallb P (List.map N.of_nat (seq 0 n)) = true →
  ∀ c, (c < N.of_nat n)%N → P c = true.
Proof.
  intros Hall c Hc. rewrite forallb_forall in Hall. apply Hall.
  apply in_map_iff. exists (N.to_nat c). split; [lia|].
  apply in_seq. lia.
Qed.

Lemma ucd_excerpt_agrees_on_ascii : @agrees_on_ascii ucd_excerpt.
Proof.
  intros c Hc. apply N.eqb_eq.
  apply (forallb_below
           (λ c, (@simple_lower ucd_excerpt c
                  =? N_of_ascii (lower_char (ascii_of_N c)))%N) 128);
    [vm_compute; reflexivity | done].
Qed.

(** C5 (as stated, refuted). The day named [ΟΔΟΣ] contains the search
    term [Σ], yet the filter does not list it: lower-casing turns the
    final sigma of the name into [ς] and the term into [σ]. *)
Lemma filteredDays_not_exact_final_sigma :
  let day := mkEventDay "d1" 1 "ΟΔΟΣ" "" None in
  let s := EventsManagement.mkState "Σ"
             (Some (mkEventWithDays None (Some [day]))) false None in
  day ∈ EventsManagement.source_days s
  ∧ EventsManagement.day_selected (EventsManagement.searchTerm s) day
  ∧ @EventsManagement.filteredDays_unicode ucd_excerpt s = []
  ∧ ¬ EventsManagement.selects
        (EventsManagement.day_selected (EventsManagement.searchTerm s))
        (EventsManagement.source_days s)
        (@EventsManagement.filteredDays_unicode ucd_excerpt s).
Proof.
  intros day s.
  assert (Hsel : EventsManagement.day_selected
                   (EventsManagement.searchTerm s) day).
  { left. exists "ΟΔΟ", "Σ", "". split; [reflexivity|].
    by apply same_nocase_iff. }
  split_and!.
  - apply list_elem_of_here.
  - exact Hsel.
  - vm_compute. reflexivity.
  - replace (@EventsManagement.filteredDays_unicode ucd_excerpt s)
      with (@nil EventDay)
      by (vm_compute; reflexivity).
    intros Hbad. inversion Hbad; subst. contradiction.
Qed.

Lemma filteredDays_exact_on_ascii_witness :
  let day := mkEventDay "d1" 1 "Opening Day" "Welcome address" None in
  let s := EventsManagement.mkState "DAY"
             (Some (mkEventWithDays None (Some [day]))) false None in
  EventsManagement.selects
    (EventsManagement.day_selected (EventsManagement.searchTerm s))
    (EventsManagement.source_days s)
    (@EventsManagement.filteredDays_unicode ucd_excerpt s)
  ∧ (∀ l, EventsManagement.selects
            (EventsManagement.day_selected (EventsManagement.searchTerm s))
            (EventsManagement.source_days s) l →
          l = @EventsManagement.filteredDays_unicode ucd_excerpt s)
  ∧ (∀ d, d ∈ @EventsManagement.filteredDays_unicode ucd_excerpt s
          ↔ d ∈ EventsManagement.source_days s
            ∧ EventsManagement.day_selected
                (EventsManagement.searchTerm s) d).
Proof.
  intros day s.
  apply (@filteredDays_exact_on_ascii ucd_excerpt s).
  - exact ucd_excerpt_agrees_on_ascii.
  - split; [reflexivity|]. intros d Hd.
    apply list_elem_of_singleton in Hd as ->. split; reflexivity.
Defined.

(** C6 (as stated, refuted). The search term [Σ] is a substring of the
    name [AΣ] of a fetched day, and the filter does not list the day. *)
Lemma name_match_dropped_by_final_sigma :
  let day := mkEventDay "d1" 1 "AΣ" "" None in
  let s := EventsManagement.mkState "Σ"
             (Some (mkEventWithDays None (Some [day]))) false None in
  day ∈ EventsManagement.source_days s
  ∧ substring_of (EventsManagement.searchTerm s) (day_name day)
  ∧ day ∉ @EventsManagement.filteredDays_unicode ucd_excerpt s.
Proof.
  intros day s. split_and!.
  - apply list_elem_of_here.
  - exists "A", "". reflexivity.
  - replace (@EventsManagement.filteredDays_unicode ucd_excerpt s)
      with (@nil EventDay)
      by (vm_compute; reflexivity).
    apply not_elem_of_nil.
Qed.

Lemma filteredDays_includes_ascii_name_match_witness :
  let day := mkEventDay "d1" 1 "Opening Day" "Ημέρα έναρξης" None in
  let s := EventsManagement.mkState "Day"
             (Some (mkEventWithDays None (Some [day]))) false None in
  day ∈ @EventsManagement.filteredDays_unicode ucd_excerpt s.
Proof.
  intros day s.
  apply (@filteredDays_includes_ascii_name_match ucd_excerpt s day).
  - exact ucd_excerpt_agrees_on_ascii.
  - apply list_elem_of_here.
  - reflexivity.
  - exists "Opening ", "". reflexivity.
Defined.

Lemma longer_ascii_search_narrows_witness :
  let ev := Some (mkEventWithDays None
                    (Some [mkEventDay "d1" 1 "Opening Day" "" None;
                           mkEventDay "d2" 2 "ΟΔΟΣ" "Closing day" None])) in
  let s1 := EventsManagement.mkState "Day" ev false None in
  let s2 := EventsManagement.mkState "ing Day" ev false None in
  sublist (@EventsManagement.filteredDays_unicode ucd_excerpt s2)
    (@EventsManagement.filteredDays_unicode ucd_excerpt s1).
Proof.
  intros ev s1 s2.
  apply (@longer_ascii_search_narrows ucd_excerpt s1 s2).
  - exact ucd_excerpt_agrees_on_ascii.
  - reflexivity.
  - reflexivity.
  - exists "ing ", "". reflexivity.
Defined.
